(** * ldapom: change tracking, write-back and reconnection

    A shallow embedding of [ldapom.py]: the per-attribute change tracker
    ([LdapAttribute]), the connection with its reconnect decorators
    ([LdapConnection]) and the lazy entry ([LdapNode]), with the properties
    of the specification stated over them.

    Python objects are records, mutation is explicit state passing, a raised
    exception is the [Raise] outcome, and the python-ldap session object is
    an interface of functions of the call history. *)

From stdpp Require Import gmap strings list fin_maps.

Open Scope string_scope.
Open Scope list_scope.

(** ** Python values and outcomes *)

(** The exceptions the module raises itself or lets through. *)
Inductive exn :=
| SERVER_DOWN
| INVALID_CREDENTIALS
| NO_SUCH_OBJECT
| LDAPError (msg : string)
| AttributeError
| KeyError (key : string)
| IndexError
| StopIteration.

(** Outcome of a call: a returned value or a raised exception. [OutOfFuel]
    is the call that has not come back: a library call that blocks, or a
    loop waiting on the server that the model cut off when its fuel ran
    out. *)
Inductive outcome (A : Type) :=
| Return (a : A)
| Raise (e : exn)
| OutOfFuel.
Arguments Return {A} a.
Arguments Raise {A} e.
Arguments OutOfFuel {A}.

(** A scalar handed to an attribute: a string, or [None]. *)
Inductive scalar :=
| SStr (s : string)
| SNone.

(** [str(value)] *)
Definition str (v : scalar) : string :=
  match v with
  | SStr s => s
  | SNone => "None"
  end.

(** [value in values], on a list of strings: [None] equals no string. *)
Definition scalar_in (v : scalar) (values : list string) : bool :=
  match v with
  | SStr s => bool_decide (s ∈ values)
  | SNone => false
  end.

(** An argument that is either a scalar or a list ([type(value) == list]). *)
Inductive value :=
| Scalar (v : scalar)
| PyList (l : list string).

(** The modification verbs of python-ldap. *)
Inductive mod_op := MOD_ADD | MOD_DELETE | MOD_REPLACE.

(** A modify instruction [(op, name, value)]; [None] stands for Python's
    [None]. *)
Definition modtuple : Type := mod_op * string * option string.

(** What [get_change_list] hands back: a list of instructions, or one bare
    3-tuple. *)
Inductive change_obj :=
| ChangeList (l : list modtuple)
| ChangeTuple (m : modtuple).

(** An element of the list that [save] builds with [extend]. *)
Inductive change_elem :=
| EMod (m : modtuple)
| EOp (op : mod_op)
| EStr (s : string)
| ENone.

(** Iterating over an object, as [list.extend] does: a list gives its
    instructions, a tuple gives its three components. *)
Definition iter_change (o : change_obj) : list change_elem :=
  match o with
  | ChangeList l => EMod <$> l
  | ChangeTuple (op, name, v) =>
      [EOp op; EStr name; match v with Some s => EStr s | None => ENone end]
  end.

Global Instance mod_op_eq_dec : EqDecision mod_op.
Proof. solve_decision. Defined.
Global Instance exn_eq_dec : EqDecision exn.
Proof. solve_decision. Defined.
Global Instance change_elem_eq_dec : EqDecision change_elem.
Proof. solve_decision. Defined.

(** ** class LdapAttribute *)

Module LdapAttribute.

Record t := mk {
  _name : string;
  _replace_all : bool;
  _added : list modtuple;
  _values : list string
}.

Definition add_instr (name v : string) : modtuple := (MOD_ADD, name, Some v).

(** [append]: the value is looked up as given and stored as [str(value)]. *)
Definition append (v : scalar) (self : t) : t :=
  if negb (scalar_in v (_values self)) then
    {| _name := _name self;
       _replace_all := _replace_all self;
       _added := _added self ++ [add_instr (_name self) (str v)];
       _values := _values self ++ [str v] |}
  else self.

(** [__init__(name, value, add)] *)
Definition __init__ (name : string) (v : value) (add : bool) : t :=
  let self := {| _name := name; _replace_all := false;
                 _added := []; _values := [] |} in
  if add then
    match v with
    | PyList l => foldl (fun a x => append (SStr x) a) self l
    | Scalar s => append s self
    end
  else
    match v with
    | PyList l => mk name false [] l
    | Scalar s => mk name false [] [str s]
    end.

Definition __len__ (self : t) : nat := length (_values self).

Definition __contains__ (item : string) (self : t) : bool :=
  bool_decide (item ∈ _values self).

(** A Python index on a list of length [n]: negative keys count from the
    end. *)
Definition py_index (key : Z) (n : nat) : option nat :=
  let i := (if key <? 0 then key + Z.of_nat n else key)%Z in
  if ((0 <=? i) && (i <? Z.of_nat n))%Z then Some (Z.to_nat i) else None.

Definition __getitem__ (key : Z) (self : t) : outcome string :=
  match py_index key (length (_values self)) with
  | Some i => match _values self !! i with
              | Some x => Return x
              | None => Raise IndexError
              end
  | None => Raise IndexError
  end.

(** [__setitem__]: the flag is raised before the assignment, so it stays
    raised when the index is out of range. *)
Definition __setitem__ (key : Z) (v : scalar) (self : t) : outcome unit * t :=
  let self := mk (_name self) true (_added self) (_values self) in
  match py_index key (length (_values self)) with
  | Some i =>
      (Return (), mk (_name self) true (_added self) (<[i := str v]> (_values self)))
  | None => (Raise IndexError, self)
  end.

Definition __delitem__ (key : Z) (self : t) : outcome unit * t :=
  let self := mk (_name self) true (_added self) (_values self) in
  match py_index key (length (_values self)) with
  | Some i =>
      (Return (), mk (_name self) true (_added self) (delete i (_values self)))
  | None => (Raise IndexError, self)
  end.

Definition set_value (v : value) (self : t) : t :=
  match v with
  | PyList l => mk (_name self) true (_added self) l
  | Scalar s => mk (_name self) true (_added self) [str s]
  end.

(** [get_change_list]: the empty case returns the bare tuple, the other
    cases return lists. *)
Definition get_change_list (self : t) : change_obj :=
  if _replace_all self then
    if Nat.eqb (__len__ self) 0 then
      ChangeTuple (MOD_DELETE, _name self, None)
    else
      ChangeList
        (((fun x => (MOD_REPLACE, _name self, Some x)) <$> take 1 (_values self))
         ++ ((fun x => (MOD_ADD, _name self, Some x)) <$> drop 1 (_values self)))
  else ChangeList (_added self).

Definition discard_change_list (self : t) : t :=
  mk (_name self) false [] (_values self).

End LdapAttribute.

(** ** The python-ldap session interface *)

Definition handle := nat.
Definition msgid := nat.

Inductive res_type :=
| RES_BIND | RES_SEARCH_ENTRY | RES_SEARCH_RESULT
| RES_MODIFY | RES_ADD | RES_DELETE | RES_OTHER.

Inductive scope := SCOPE_BASE | SCOPE_ONELEVEL | SCOPE_SUBTREE.

Global Instance res_type_eq_dec : EqDecision res_type.
Proof. solve_decision. Defined.

(** One search result: [(dn, {name: [values]})]. *)
Definition entry : Type := string * gmap string (list string).

(** The calls made on the library, in the order they are made. *)
Inductive call :=
| CInitialize (uri : string)
| CBind (lo : handle) (who cred : string)
| CAdd (lo : handle) (dn : string) (attrs : list (string * list string))
| CModify (lo : handle) (dn : string) (change : list change_elem)
| CDelete (lo : handle) (dn : string)
| CSearch (lo : handle) (base : string) (sc : scope) (filter : string)
          (attrs : option (list string))
| CResult (lo : handle) (id : msgid) (timeout : Z).

(** The library and the server behind it: every answer is a function of the
    calls made so far and of the arguments of the call. *)
Record ldap_lib := {
  initialize : list call -> string -> outcome handle;
  simple_bind_s : list call -> handle -> string -> string ->
                  outcome (res_type * list entry);
  add_s : list call -> handle -> string -> list (string * list string) ->
          outcome (res_type * list entry);
  modify_s : list call -> handle -> string -> list change_elem ->
             outcome (res_type * list entry);
  delete_s : list call -> handle -> string -> outcome (res_type * list entry);
  search : list call -> handle -> string -> scope -> string ->
           option (list string) -> outcome msgid;
  result : list call -> handle -> msgid -> Z -> outcome (res_type * list entry)
}.

(** ** A state and exception monad *)

Definition M (S A : Type) : Type := S -> outcome A * S.

Definition ret {S A} (a : A) : M S A := fun s => (Return a, s).
Definition raise {S A} (e : exn) : M S A := fun s => (Raise e, s).

Definition bind {S A B} (c : M S A) (k : A -> M S B) : M S B :=
  fun s =>
    match c s with
    | (Return a, s1) => k a s1
    | (Raise e, s1) => (Raise e, s1)
    | (OutOfFuel, s1) => (OutOfFuel, s1)
    end.

Notation "x <- c1 ;; c2" := (bind c1 (fun x => c2))
  (at level 100, c1 at next level, right associativity).
Notation "c1 ;; c2" := (bind c1 (fun _ => c2))
  (at level 100, right associativity).

(** ** class LdapConnection *)

Module LdapConnection.

Record t := mk {
  _lo : option handle;
  _uri : string;
  _base : string;
  _login : string;
  _password : string;
  _timeout : Z
}.

(** The connection object and the log of library calls. *)
Record st := mkst { conn : t; log : list call }.

Definition set_lo (lo : handle) (c : t) : t :=
  mk (Some lo) (_uri c) (_base c) (_login c) (_password c) (_timeout c).

(** *** Generators

    A generator object is its suspended state; [next] is a step that
    returns the yielded value or raises, [StopIteration] included. *)

Definition gen_step (G X : Type) : Type := G -> st -> outcome X * G * st.

Record query_args := {
  q_filter : string;
  q_retrieve_attributes : option (list string);
  q_base : option string;
  q_scope : scope
}.

(** The generator of the undecorated [query]: not yet entered, suspended at
    its [yield] with the search's [result_id], or finished. *)
Inductive query_gen :=
| QNew (a : query_args)
| QLoop (result_id : msgid)
| QDone.

(** The generator of [_retry_on_disconnect_gen]'s wrapper: not yet entered,
    suspended at one of its two [yield]s holding the inner generator, or
    finished. *)
Inductive retry_gen (G : Type) :=
| RNew
| RRunning (gen : G)
| RDone.
Arguments RNew {G}.
Arguments RRunning {G} gen.
Arguments RDone {G}.

(** [yield gen.next()]: a value suspends the wrapper, anything raised ends
    it. *)
Definition yield_next {G X} (r : outcome X * G * st)
  : outcome X * retry_gen G * st :=
  match r with
  | (Return x, gen, s) => (Return x, RRunning gen, s)
  | (o, _, s) => (o, RDone, s)
  end.

Section WithLibrary.
Variable L : ldap_lib.

(** A library call: answered from the history, then logged. *)
Definition invoke {A} (c : call) (answer : list call -> outcome A) : M st A :=
  fun s => (answer (log s), mkst (conn s) (log s ++ [c])).

Definition get_conn : M st t := fun s => (Return (conn s), s).

(** [self._lo], on which a method is about to be called. *)
Definition the_lo : M st handle :=
  fun s => match _lo (conn s) with
           | Some lo => (Return lo, s)
           | None => (Raise AttributeError, s)
           end.

Definition _connect : M st unit :=
  self <- get_conn ;;
  lo <- invoke (CInitialize (_uri self)) (fun h => initialize L h (_uri self)) ;;
  (fun s => (Return (), mkst (set_lo lo (conn s)) (log s))) ;;
  invoke (CBind lo (_login self) (_password self))
         (fun h => simple_bind_s L h lo (_login self) (_password self)) ;;
  ret ().

(** [_retry_on_disconnect] *)
Definition _retry_on_disconnect {A} (func : M st A) : M st A :=
  fun s =>
    match func s with
    | (Raise SERVER_DOWN, s1) => (_connect ;; func) s1
    | r => r
    end.

(** [__init__]: [_timeout] is assigned after [_connect] has returned. *)
Definition __init__ (uri base login password : string) (h : list call)
  : outcome t * list call :=
  match _connect (mkst (mk None uri base login password 0) h) with
  | (Return _, s) =>
      (Return (mk (_lo (conn s)) uri base login password 0), log s)
  | (Raise e, s) => (Raise e, log s)
  | (OutOfFuel, s) => (OutOfFuel, log s)
  end.

Definition authenticate (dn password : string) : M st bool :=
  self <- get_conn ;;
  lo <- invoke (CInitialize (_uri self)) (fun h => initialize L h (_uri self)) ;;
  fun s =>
    match invoke (CBind lo dn password)
                 (fun h => simple_bind_s L h lo dn password) s with
    | (Return (rt, _), s1) => (Return (bool_decide (rt = RES_BIND)), s1)
    | (Raise INVALID_CREDENTIALS, s1) => (Return false, s1)
    | (Raise e, s1) => (Raise e, s1)
    | (OutOfFuel, s1) => (OutOfFuel, s1)
    end.

(** The undecorated bodies of [add], [modify] and [delete]. *)
Definition add_body (dn : string) (attrs : list (string * list string))
  : M st unit :=
  lo <- the_lo ;;
  r <- invoke (CAdd lo dn attrs) (fun h => add_s L h lo dn attrs) ;;
  if bool_decide (r.1 ≠ RES_ADD) then raise (LDAPError "Wrong result type")
  else ret ().

Definition modify_body (dn : string) (change : list change_elem) : M st unit :=
  lo <- the_lo ;;
  r <- invoke (CModify lo dn change) (fun h => modify_s L h lo dn change) ;;
  if bool_decide (r.1 ≠ RES_MODIFY) then raise (LDAPError "Wrong result type")
  else ret ().

Definition delete_body (dn : string) : M st unit :=
  lo <- the_lo ;;
  r <- invoke (CDelete lo dn) (fun h => delete_s L h lo dn) ;;
  if bool_decide (r.1 ≠ RES_DELETE) then raise (LDAPError "Wrong result type")
  else ret ().

Definition add dn attrs : M st unit := _retry_on_disconnect (add_body dn attrs).
Definition modify dn change : M st unit :=
  _retry_on_disconnect (modify_body dn change).
Definition delete dn : M st unit := _retry_on_disconnect (delete_body dn).

(** The [while 1] loop of [query] up to its next [yield] ([Some]) or its
    [break] ([None]). *)
Fixpoint query_loop (fuel : nat) (result_id : msgid) : M st (option entry) :=
  match fuel with
  | 0 => fun s => (OutOfFuel, s)
  | S fuel' =>
      self <- get_conn ;;
      lo <- the_lo ;;
      r <- invoke (CResult lo result_id (_timeout self))
                  (fun h => result L h lo result_id (_timeout self)) ;;
      match r.2 with
      | [] => ret None
      | x :: _ =>
          if bool_decide (r.1 = RES_SEARCH_ENTRY) then ret (Some x)
          else query_loop fuel' result_id
      end
  end.

(** The body of [query] from its entry to the first [yield] or [break]. *)
Definition query_enter (fuel : nat) (a : query_args)
  : M st (msgid * option entry) :=
  self <- get_conn ;;
  lo <- the_lo ;;
  let base := default (_base self) (q_base a) in
  result_id <- invoke (CSearch lo base (q_scope a) (q_filter a)
                               (q_retrieve_attributes a))
                      (fun h => search L h lo base (q_scope a) (q_filter a)
                                       (q_retrieve_attributes a)) ;;
  x <- query_loop fuel result_id ;;
  ret (result_id, x).

Definition query_next (fuel : nat) : gen_step query_gen entry :=
  fun g s =>
    match g with
    | QNew a =>
        match query_enter fuel a s with
        | (Return (result_id, Some x), s1) => (Return x, QLoop result_id, s1)
        | (Return (_, None), s1) => (Raise StopIteration, QDone, s1)
        | (Raise e, s1) => (Raise e, QDone, s1)
        | (OutOfFuel, s1) => (OutOfFuel, QDone, s1)
        end
    | QLoop result_id =>
        match query_loop fuel result_id s with
        | (Return (Some x), s1) => (Return x, QLoop result_id, s1)
        | (Return None, s1) => (Raise StopIteration, QDone, s1)
        | (Raise e, s1) => (Raise e, QDone, s1)
        | (OutOfFuel, s1) => (OutOfFuel, QDone, s1)
        end
    | QDone => (Raise StopIteration, QDone, s)
    end.

(** [_retry_on_disconnect_gen]: [func] is the fresh generator that calling
    the wrapped function gives. The [try] covers its creation and its first
    [next]; the [while 1] loop after it is outside the [try]. *)
Definition _retry_on_disconnect_gen {G X} (func : G) (next : gen_step G X)
  : gen_step (retry_gen G) X :=
  fun r s =>
    match r with
    | RNew =>
        match next func s with
        | (Raise SERVER_DOWN, _, s1) =>
            match _connect s1 with
            | (Return _, s2) => yield_next (next func s2)
            | (Raise e, s2) => (Raise e, RDone, s2)
            | (OutOfFuel, s2) => (OutOfFuel, RDone, s2)
            end
        | r1 => yield_next r1
        end
    | RRunning gen => yield_next (next gen s)
    | RDone => (Raise StopIteration, RDone, s)
    end.

(** [query]: calling it gives the wrapper's generator, not yet entered. *)
Definition query (fuel : nat) (a : query_args)
  : gen_step (retry_gen query_gen) entry :=
  _retry_on_disconnect_gen (QNew a) (query_next fuel).

(** [list(gen)] *)
Fixpoint list_ {G X} (fuel : nat) (next : gen_step G X) (gen : G)
  (acc : list X) : M st (list X) :=
  fun s =>
    match fuel with
    | 0 => (OutOfFuel, s)
    | S fuel' =>
        match next gen s with
        | (Return x, gen', s1) => list_ fuel' next gen' (acc ++ [x]) s1
        | (Raise StopIteration, _, s1) => (Return acc, s1)
        | (Raise e, _, s1) => (Raise e, s1)
        | (OutOfFuel, _, s1) => (OutOfFuel, s1)
        end
    end.

Definition check_if_dn_exists (fuel : nat) (dn : string) : M st bool :=
  fun s =>
    match list_ fuel (query fuel (Build_query_args "(objectClass=*)" None
                                    (Some dn) SCOPE_BASE)) RNew [] s with
    | (Return res, s1) => (Return (negb (Nat.eqb (length res) 0)), s1)
    | (Raise NO_SUCH_OBJECT, s1) => (Return false, s1)
    | (Raise e, s1) => (Raise e, s1)
    | (OutOfFuel, s1) => (OutOfFuel, s1)
    end.

End WithLibrary.
End LdapConnection.

(** ** class LdapNode *)

Module LdapNode.
Import LdapConnection.

(** [_conn] is the connection of the state the methods run in: the node
    holds a reference to it, not a copy. [_attr = None] is the mapping not
    yet fetched. *)
Record t := mk {
  _dn : string;
  _valid : bool;
  _to_delete : list string;
  _new : bool;
  _attr : option (gmap string LdapAttribute.t)
}.

(** A node and the connection it is linked to. *)
Definition nst : Type := t * st.

(** What [__getattr__] returns: the tracker, or the boolean of [is_*]. *)
Inductive got :=
| GotAttr (a : LdapAttribute.t)
| GotBool (b : bool).

Definition __init__ (dn : string) (new : bool) : t :=
  mk dn true [] new (if new then Some ∅ else None).

(** [get_ldap_node] and [new_ldap_node] of the connection. *)
Definition get_ldap_node (dn : string) : t := __init__ dn false.
Definition new_ldap_node (dn : string) : t := __init__ dn true.

Definition get_self : M nst t := fun s => (Return s.1, s).
Definition set_self (f : t -> t) : M nst unit := fun s => (Return (), (f s.1, s.2)).

(** A method of [self._conn], run on the connection of the state. *)
Definition on_conn {A} (c : M st A) : M nst A :=
  fun s => let (o, s') := c s.2 in (o, (s.1, s')).

(** [dict.values()] *)
Definition values {A} (m : gmap string A) : list A := (map_to_list m).*2.

(** [name[3:]] *)
Definition from3 (name : string) : string :=
  String.substring 3 (String.length name - 3) name.

Section WithLibrary.
Variable L : ldap_lib.
(** [object.__setattr__] on this object: how Python stores a private
    field. *)
Variable object__setattr__ : string -> value -> t -> t.

(** The block that opens [__getattr__], [__setattr__] and [__delattr__]:
    the mapping, fetched first when it is still [None]. *)
Definition fetched_attr (fuel : nat) : M nst (gmap string LdapAttribute.t) :=
  self <- get_self ;;
  match _attr self with
  | Some attr => ret attr
  | None =>
      res <- on_conn (list_ fuel (query L fuel
               (Build_query_args "(objectClass=*)" None (Some (_dn self))
                                 SCOPE_BASE)) RNew []) ;;
      match res with
      | [] => raise IndexError
      | x :: _ =>
          let attr := map_imap (fun name vs =>
                        Some (LdapAttribute.__init__ name (PyList vs) false)) x.2 in
          set_self (fun n => mk (_dn n) (_valid n) (_to_delete n) (_new n)
                                (Some attr)) ;;
          ret attr
      end
  end.

Definition set_attr (attr : gmap string LdapAttribute.t) : M nst unit :=
  set_self (fun n => mk (_dn n) (_valid n) (_to_delete n) (_new n) (Some attr)).

Definition __getattr__ (fuel : nat) (name : string) : M nst got :=
  attr <- fetched_attr fuel ;;
  if String.prefix "is_" name then
    match attr !! "objectClass" with
    | Some oc => ret (GotBool (LdapAttribute.__contains__ (from3 name) oc))
    | None => raise (KeyError "objectClass")
    end
  else
    match attr !! name with
    | Some a => ret (GotAttr a)
    | None => raise AttributeError
    end.

Definition __setattr__ (fuel : nat) (name : string) (v : value) : M nst unit :=
  if String.prefix "_" name then set_self (object__setattr__ name v)
  else
    attr <- fetched_attr fuel ;;
    match attr !! name with
    | Some a => set_attr (<[name := LdapAttribute.set_value v a]> attr)
    | None => set_attr (<[name := LdapAttribute.__init__ name v true]> attr)
    end.

Definition __delattr__ (fuel : nat) (name : string) : M nst unit :=
  attr <- fetched_attr fuel ;;
  match attr !! name with
  | Some _ =>
      set_attr (base.delete name attr) ;;
      set_self (fun n => mk (_dn n) (_valid n) (_to_delete n ++ [name]) (_new n)
                            (_attr n))
  | None => raise (KeyError name)
  end.

(** The payload of [add]: [(x._name, x._values)] of every tracker. *)
Definition add_list (attr : gmap string LdapAttribute.t)
  : list (string * list string) :=
  (fun x => (LdapAttribute._name x, LdapAttribute._values x)) <$> values attr.

(** The list handed to [modify]: the pending deletions, then every
    tracker's [get_change_list()] added with [extend]. *)
Definition modify_list (to_delete : list string)
  (attr : gmap string LdapAttribute.t) : list change_elem :=
  foldl (fun change_list a =>
           change_list ++ iter_change (LdapAttribute.get_change_list a))
        ((fun x => EMod (MOD_DELETE, x, None)) <$> to_delete)
        (values attr).

(** The last four lines of [save]. *)
Definition saved (attr : gmap string LdapAttribute.t) : M nst unit :=
  set_self (fun n => mk (_dn n) (_valid n) [] false
                        (Some (LdapAttribute.discard_change_list <$> attr))).

(** [save]; the two [print] statements write to standard output only. *)
Definition save : M nst unit :=
  self <- get_self ;;
  if _new self then
    match _attr self with
    | None => raise AttributeError
    | Some attr =>
        on_conn (add L (_dn self) (add_list attr)) ;;
        saved attr
    end
  else
    match _attr self with
    | None => raise AttributeError
    | Some attr =>
        let change_list := modify_list (_to_delete self) attr in
        if Nat.eqb (length change_list) 0 then ret ()
        else
          on_conn (modify L (_dn self) change_list) ;;
          saved attr
    end.

Definition delete : M nst unit :=
  self <- get_self ;;
  on_conn (LdapConnection.delete L (_dn self)) ;;
  set_self (fun n => mk (_dn n) false (_to_delete n) (_new n) (_attr n)).

Definition check_password (password : string) : M nst bool :=
  self <- get_self ;;
  on_conn (authenticate L (_dn self) password).

Definition set_password (fuel : nat) (password : string) : M nst unit :=
  __setattr__ fuel "userPassword" (Scalar (SStr password)).

End WithLibrary.
End LdapNode.

(** ** Notions of the statements *)

(** Number of occurrences of [x] in [l]. *)
Definition count_of {A} `{EqDecision A} (x : A) (l : list A) : nat :=
  length (filter (fun y => y = x) l).

(** While the full-replace flag is clear, every recorded add instruction
    names a value that is stored. *)
Definition tracked (a : LdapAttribute.t) : Prop :=
  LdapAttribute._replace_all a = false ->
  forall x, LdapAttribute.add_instr (LdapAttribute._name a) x
              ∈ LdapAttribute._added a ->
            x ∈ LdapAttribute._values a.

(** *** The three decorated primitives, taken together *)

Inductive primitive :=
| PAdd (dn : string) (attrs : list (string * list string))
| PModify (dn : string) (change : list change_elem)
| PDelete (dn : string).

(** The method of the connection. *)
Definition run_primitive (L : ldap_lib) (p : primitive) : M LdapConnection.st unit :=
  match p with
  | PAdd dn attrs => LdapConnection.add L dn attrs
  | PModify dn change => LdapConnection.modify L dn change
  | PDelete dn => LdapConnection.delete L dn
  end.

(** The library call it makes on session [lo], and the library's answer. *)
Definition primitive_call (p : primitive) (lo : handle) : call :=
  match p with
  | PAdd dn attrs => CAdd lo dn attrs
  | PModify dn change => CModify lo dn change
  | PDelete dn => CDelete lo dn
  end.

Definition primitive_answer (L : ldap_lib) (p : primitive) (h : list call)
  (lo : handle) : outcome (res_type * list entry) :=
  match p with
  | PAdd dn attrs => add_s L h lo dn attrs
  | PModify dn change => modify_s L h lo dn change
  | PDelete dn => delete_s L h lo dn
  end.

(** The result type it insists on. *)
Definition primitive_expects (p : primitive) : res_type :=
  match p with
  | PAdd _ _ => RES_ADD
  | PModify _ _ => RES_MODIFY
  | PDelete _ => RES_DELETE
  end.

(** What a primitive makes of the library's answer. *)
Definition checked (good : res_type) (o : outcome (res_type * list entry))
  : outcome unit :=
  match o with
  | Return r =>
      if bool_decide (r.1 ≠ good) then Raise (LDAPError "Wrong result type")
      else Return ()
  | Raise e => Raise e
  | OutOfFuel => OutOfFuel
  end.

(** *** The invariant of the pending deletions

    No name on the pending-deletion list has a tracker in the mapping; an
    entry whose mapping is not yet fetched has no pending deletion. *)
Definition pending_absent (n : LdapNode.t) : Prop :=
  match LdapNode._attr n with
  | Some attr => forall name, name ∈ LdapNode._to_delete n -> attr !! name = None
  | None => LdapNode._to_delete n = []
  end.

(** Sequences of attribute reads, deletes and writes in which no write
    names an attribute that is pending deletion. *)
Inductive attribute_run (L : ldap_lib)
  (object__setattr__ : string -> value -> LdapNode.t -> LdapNode.t)
  : LdapNode.nst -> LdapNode.nst -> Prop :=
| run_done s : attribute_run L object__setattr__ s s
| run_read s s1 s2 fuel name o :
    attribute_run L object__setattr__ s s1 ->
    LdapNode.__getattr__ L fuel name s1 = (o, s2) ->
    attribute_run L object__setattr__ s s2
| run_delete s s1 s2 fuel name o :
    attribute_run L object__setattr__ s s1 ->
    LdapNode.__delattr__ L fuel name s1 = (o, s2) ->
    attribute_run L object__setattr__ s s2
| run_write s s1 s2 fuel name v o :
    attribute_run L object__setattr__ s s1 ->
    String.prefix "_" name = false ->
    name ∉ LdapNode._to_delete s1.1 ->
    LdapNode.__setattr__ L object__setattr__ fuel name v s1 = (o, s2) ->
    attribute_run L object__setattr__ s s2.

(** The elements of a list in the order in which they first appear, each
    once. *)
Fixpoint first_occurrences (l : list string) : list string :=
  match l with
  | [] => []
  | x :: l' => x :: filter (fun y => y <> x) (first_occurrences l')
  end.

(** *** Runs of tracker methods *)

(** The mutating methods of a tracker, as a caller invokes them. *)
Inductive tracker_op :=
| OAppend (v : scalar)
| OSetValue (v : value)
| OSetItem (key : Z) (v : scalar)
| ODelItem (key : Z)
| ODiscard.

(** The tracker after one call; an [IndexError] leaves what the method had
    done before raising. *)
Definition tracker_step (a : LdapAttribute.t) (o : tracker_op) : LdapAttribute.t :=
  match o with
  | OAppend v => LdapAttribute.append v a
  | OSetValue v => LdapAttribute.set_value v a
  | OSetItem key v => (LdapAttribute.__setitem__ key v a).2
  | ODelItem key => (LdapAttribute.__delitem__ key a).2
  | ODiscard => LdapAttribute.discard_change_list a
  end.

(** The name an emitted change carries. *)
Definition change_names (o : change_obj) : list string :=
  match o with
  | ChangeList l => (fun m => m.1.2) <$> l
  | ChangeTuple m => [m.1.2]
  end.

(** Every recorded instruction is an add instruction under the tracker's
    name. *)
Definition added_own (name : string) (a : LdapAttribute.t) : Prop :=
  LdapAttribute._name a = name /\
  forall i, i ∈ LdapAttribute._added a ->
            exists x, i = LdapAttribute.add_instr name x.

(** A tracker with nothing to write back. *)
Definition clean (a : LdapAttribute.t) : Prop :=
  LdapAttribute._replace_all a = false /\ LdapAttribute._added a = [].

(** *** What a connection keeps *)

(** The settings given at construction are the same, and a connection that
    held a session still holds one. *)
Definition keeps (c c' : LdapConnection.t) : Prop :=
  LdapConnection._uri c' = LdapConnection._uri c /\
  LdapConnection._base c' = LdapConnection._base c /\
  LdapConnection._login c' = LdapConnection._login c /\
  LdapConnection._password c' = LdapConnection._password c /\
  LdapConnection._timeout c' = LdapConnection._timeout c /\
  (is_Some (LdapConnection._lo c) -> is_Some (LdapConnection._lo c')).

(** *** What an entry stores *)

(** For each attribute of the mapping, the tracker's name and values,
    without the dirty state. *)
Definition stored (n : LdapNode.t) : option (gmap string (string * list string)) :=
  match LdapNode._attr n with
  | Some attr =>
      Some ((fun a => (LdapAttribute._name a, LdapAttribute._values a)) <$> attr)
  | None => None
  end.

(** ** A scripted library and the inputs of the examples

    The [i]-th call made on the library is answered by the [i]-th reply of
    the script; past its end every call succeeds and a search has no more
    results. *)

Inductive reply :=
| Ok
| Fail (e : exn)
| Data (rt : res_type) (d : list entry).

Definition scripted_status (script : list reply) (good : res_type)
  (h : list call) : outcome (res_type * list entry) :=
  match script !! length h with
  | Some (Fail e) => Raise e
  | Some (Data rt d) => Return (rt, d)
  | _ => Return (good, [])
  end.

Definition scripted_id (script : list reply) (h : list call) : outcome nat :=
  match script !! length h with
  | Some (Fail e) => Raise e
  | _ => Return (S (length h))
  end.

Definition scripted (script : list reply) : ldap_lib := {|
  initialize h _ := scripted_id script h;
  simple_bind_s h _ _ _ := scripted_status script RES_BIND h;
  add_s h _ _ _ := scripted_status script RES_ADD h;
  modify_s h _ _ _ := scripted_status script RES_MODIFY h;
  delete_s h _ _ := scripted_status script RES_DELETE h;
  search h _ _ _ _ _ := scripted_id script h;
  result h _ _ _ := scripted_status script RES_SEARCH_RESULT h
|}.

(** A connection already bound on session 0, with an empty call log. *)
Definition conn0 : LdapConnection.t :=
  LdapConnection.mk (Some 0) "ldap://localhost" "dc=example,dc=com"
                    "cn=admin,dc=example,dc=com" "admin" 0.
Definition st0 : LdapConnection.st := LdapConnection.mkst conn0 [].

(** [object.__setattr__] of the examples: no private field is written in
    them. *)
Definition no_private (_ : string) (_ : value) (n : LdapNode.t) : LdapNode.t := n.

(** The tracker of the examples: [sn], loaded with one value, then set to
    three. *)
Definition sn_abc : LdapAttribute.t :=
  LdapAttribute.set_value (PyList ["a"; "b"; "c"])
    (LdapAttribute.__init__ "sn" (PyList ["x"]) false).

(** A tracker as loaded from the server, holding ["a"]. *)
Definition cn_loaded : LdapAttribute.t :=
  LdapAttribute.__init__ "cn" (PyList ["a"]) false.

(** The entry of the examples and a search for everything under the base. *)
Definition jack_dn : string := "cn=jack,dc=example,dc=com".
Definition jack_entry : entry := (jack_dn, {[ "loginShell" := ["/bin/bash"] ]}).
Definition search_all : LdapConnection.query_args :=
  LdapConnection.Build_query_args "(objectClass=*)" None None SCOPE_SUBTREE.

(** Two scripts for a search: the session drops while the first result is
    awaited; the session drops after the first result has been handed out. *)
Definition drop_before_first : list reply :=
  [Ok; Fail SERVER_DOWN; Ok; Ok; Ok; Data RES_SEARCH_ENTRY [jack_entry]].
Definition drop_after_first : list reply :=
  [Ok; Data RES_SEARCH_ENTRY [jack_entry]; Fail SERVER_DOWN].

(** The session drops while the first result is awaited, and the server
    cannot be reached for the reconnect. *)
Definition reconnect_refused : list reply :=
  [Ok; Fail SERVER_DOWN; Fail SERVER_DOWN].

(** The states the second script leaves after the first and the second
    step. *)
Definition after_first : LdapConnection.st :=
  LdapConnection.mkst conn0
    [CSearch 0 "dc=example,dc=com" SCOPE_SUBTREE "(objectClass=*)" None;
     CResult 0 1 0].
Definition after_second : LdapConnection.st :=
  LdapConnection.mkst conn0
    [CSearch 0 "dc=example,dc=com" SCOPE_SUBTREE "(objectClass=*)" None;
     CResult 0 1 0; CResult 0 1 0].

(** The entry of the examples, fetched, with its one attribute. *)
Definition jack_node : LdapNode.t :=
  LdapNode.mk jack_dn true [] false
    (Some {[ "loginShell" :=
               LdapAttribute.__init__ "loginShell" (PyList ["/bin/bash"]) false ]}).

(** The same entry after [loginShell] was set to a new value, and after it
    was set to the empty list. *)
Definition jack_zsh : LdapNode.t :=
  LdapNode.mk jack_dn true [] false
    (Some {[ "loginShell" :=
               LdapAttribute.set_value (Scalar (SStr "/bin/zsh"))
                 (LdapAttribute.__init__ "loginShell" (PyList ["/bin/bash"]) false) ]}).
Definition jack_emptied : LdapNode.t :=
  LdapNode.mk jack_dn true [] false
    (Some {[ "loginShell" :=
               LdapAttribute.set_value (PyList [])
                 (LdapAttribute.__init__ "loginShell" (PyList ["/bin/bash"]) false) ]}).

(** The entry after [del entry.loginShell], and after
    [entry.loginShell = "/bin/zsh"] following that. *)
Definition jack_deleted : LdapNode.nst :=
  (LdapNode.__delattr__ (scripted []) 0 "loginShell" (jack_node, st0)).2.
Definition jack_rewritten : LdapNode.nst :=
  (LdapNode.__setattr__ (scripted []) no_private 0 "loginShell"
     (Scalar (SStr "/bin/zsh")) jack_deleted).2.

(** The session drops on the [modify] call and again on its second
    attempt. *)
Definition drop_twice : list reply := [Fail SERVER_DOWN; Ok; Ok; Fail SERVER_DOWN].
Definition after_drop_twice : LdapConnection.st :=
  LdapConnection.mkst (LdapConnection.set_lo 2 conn0)
    [CModify 0 jack_dn [EMod (MOD_REPLACE, "loginShell", Some "/bin/zsh")];
     CInitialize "ldap://localhost";
     CBind 2 "cn=admin,dc=example,dc=com" "admin";
     CModify 2 jack_dn [EMod (MOD_REPLACE, "loginShell", Some "/bin/zsh")]].

(** A fetched entry with an object class and a surname. *)
Definition daniel_node : LdapNode.t :=
  LdapNode.mk "cn=daniel,dc=example,dc=com" true [] false
    (Some (<[ "objectClass" :=
                LdapAttribute.__init__ "objectClass" (PyList ["person"; "top"]) false ]>
             {[ "sn" := LdapAttribute.__init__ "sn" (PyList ["Daniel"]) false ]})).

(** The entry after a [save] of [jack_zsh] that went through. *)
Definition jack_saved : LdapNode.t :=
  LdapNode.mk jack_dn true [] false
    (Some (LdapAttribute.discard_change_list <$>
             {[ "loginShell" :=
                  LdapAttribute.set_value (Scalar (SStr "/bin/zsh"))
                    (LdapAttribute.__init__ "loginShell" (PyList ["/bin/bash"]) false) ]})).

(** A search that gives the one entry and ends. *)
Definition one_entry : list reply := [Ok; Data RES_SEARCH_ENTRY [jack_entry]].
Definition after_one_entry : LdapConnection.st :=
  LdapConnection.mkst conn0
    [CSearch 0 jack_dn SCOPE_BASE "(objectClass=*)" None;
     CResult 0 1 0; CResult 0 1 0].

(** * Properties *)

(** ** The attribute change tracker *)

Section Tracker.
Import LdapAttribute.

Lemma count_of_app {A} `{EqDecision A} (x : A) (l1 l2 : list A) :
  count_of x (l1 ++ l2) = count_of x l1 + count_of x l2.
Proof. unfold count_of. by rewrite filter_app, length_app. Qed.

Lemma count_of_absent {A} `{EqDecision A} (x : A) (l : list A) :
  x ∉ l -> count_of x l = 0.
Proof.
  unfold count_of. induction l as [|y l IH]; intros Hx; [done|].
  apply not_elem_of_cons in Hx as [Hne Hl].
  rewrite filter_cons. destruct (decide (y = x)); [congruence|]. by apply IH.
Qed.

Lemma count_of_singleton {A} `{EqDecision A} (x : A) : count_of x [x] = 1.
Proof. unfold count_of. rewrite filter_cons. by destruct (decide (x = x)). Qed.

Lemma count_of_cons_ne {A} `{EqDecision A} (x y : A) (l : list A) :
  y <> x -> count_of x (y :: l) = count_of x l.
Proof.
  intros Hne. unfold count_of. rewrite filter_cons. by destruct (decide (y = x)).
Qed.

(** C1: with the full-replace flag set and a non-empty value set,
    [get_change_list] is one replace instruction carrying the first value,
    followed by one add instruction per remaining value, and nothing
    else. *)
Theorem get_change_list_full_replace (a : t) (v : string) (rest : list string) :
  _replace_all a = true ->
  _values a = v :: rest ->
  get_change_list a =
    ChangeList ((MOD_REPLACE, _name a, Some v)
                :: ((fun x => (MOD_ADD, _name a, Some x)) <$> rest)).
Proof.
  intros Hflag Hvals. unfold get_change_list, __len__.
  rewrite Hflag, Hvals. reflexivity.
Qed.

Lemma get_change_list_full_replace_witness :
  _replace_all sn_abc = true /\ _values sn_abc = "a" :: ["b"; "c"] /\
  get_change_list sn_abc =
    ChangeList [(MOD_REPLACE, "sn", Some "a"); (MOD_ADD, "sn", Some "b");
                (MOD_ADD, "sn", Some "c")].
Proof.
  split; [reflexivity|]. split; [reflexivity|].
  apply (get_change_list_full_replace sn_abc "a" ["b"; "c"]); reflexivity.
Defined.

(** *** The invariant of the incremental list *)

Lemma name_append v a : _name (append v a) = _name a.
Proof. unfold append. by destruct (negb _). Qed.

Lemma tracked_append v a : tracked a -> tracked (append v a).
Proof.
  intros Ha. unfold append. destruct (negb _); [|done].
  intros Hflag x Hx. simpl in *.
  apply elem_of_app in Hx as [Hx|Hx].
  - apply elem_of_app. left. by apply Ha.
  - apply list_elem_of_singleton in Hx. unfold add_instr in Hx.
    apply elem_of_app. right. apply list_elem_of_singleton. congruence.
Qed.

Lemma tracked_init name v add : tracked (__init__ name v add).
Proof.
  assert (Hempty : tracked (mk name false [] [])).
  { intros _ x Hx. simpl in Hx. by apply elem_of_nil in Hx. }
  unfold __init__. destruct add, v as [sc|l]; simpl.
  - by apply tracked_append.
  - revert Hempty. generalize (mk name false [] []).
    induction l as [|y l IH]; intros a Ha; simpl; [done|].
    apply IH. by apply tracked_append.
  - intros _ x Hx. simpl in Hx. by apply elem_of_nil in Hx.
  - intros _ x Hx. simpl in Hx. by apply elem_of_nil in Hx.
Qed.

Lemma tracked_set_value v a : tracked (set_value v a).
Proof. intros Hflag. by destruct v. Qed.

Lemma tracked_setitem key v a : tracked (__setitem__ key v a).2.
Proof. intros Hflag. unfold __setitem__ in Hflag. simpl in Hflag. by destruct (py_index _ _). Qed.

Lemma tracked_delitem key a : tracked (__delitem__ key a).2.
Proof. intros Hflag. unfold __delitem__ in Hflag. simpl in Hflag. by destruct (py_index _ _). Qed.

Lemma tracked_discard a : tracked (discard_change_list a).
Proof. intros _ x Hx. simpl in Hx. by apply elem_of_nil in Hx. Qed.

(** [append] of a value that is already stored changes nothing. *)
Lemma append_member (v : string) a : v ∈ _values a -> append (SStr v) a = a.
Proof.
  intros Hv. unfold append, scalar_in. by rewrite bool_decide_eq_true_2.
Qed.

(** C8, as the code has it: when [v] is not yet stored, and the tracker is
    not one with its full-replace flag set on an empty value set, two
    [append(v)] in a row store one copy of [v], the first records one add
    instruction for it, the second changes nothing, and the change list
    holds one add instruction for [v]. *)
Theorem append_twice_fresh (a : t) (v : string) :
  tracked a ->
  v ∉ _values a ->
  (_replace_all a = true -> _values a <> []) ->
  append (SStr v) (append (SStr v) a) = append (SStr v) a /\
  _values (append (SStr v) a) = _values a ++ [v] /\
  _added (append (SStr v) a) = _added a ++ [add_instr (_name a) v] /\
  count_of v (_values (append (SStr v) (append (SStr v) a))) = 1 /\
  exists l, get_change_list (append (SStr v) (append (SStr v) a)) = ChangeList l /\
            count_of (add_instr (_name a) v) l = 1.
Proof.
  intros Htr Hv Hne.
  assert (H1 : append (SStr v) a =
               mk (_name a) (_replace_all a)
                  (_added a ++ [add_instr (_name a) v]) (_values a ++ [v])).
  { unfold append, scalar_in. by rewrite bool_decide_eq_false_2. }
  assert (H2 : append (SStr v) (append (SStr v) a) = append (SStr v) a).
  { apply append_member. rewrite H1. simpl. apply elem_of_app. right.
    by apply list_elem_of_singleton. }
  rewrite H2, H1. simpl. split; [done|]. split; [done|]. split; [done|].
  split.
  { by rewrite count_of_app, count_of_absent, count_of_singleton. }
  unfold get_change_list, __len__. simpl.
  destruct (_replace_all a) eqn:Hflag.
  - destruct (_values a) as [|x rest] eqn:Hvals; [by destruct Hne|]. simpl.
    eexists. split; [reflexivity|].
    apply not_elem_of_cons in Hv as [Hvx Hvrest].
    rewrite drop_0, count_of_cons_ne by done.
    rewrite fmap_app, count_of_app. simpl.
    rewrite count_of_singleton, count_of_absent; [done|].
    intros Hin. apply list_elem_of_fmap in Hin as (y & Hy & Hin).
    unfold add_instr in Hy. by injection Hy as ->.
  - eexists. split; [reflexivity|].
    rewrite count_of_app, count_of_singleton, count_of_absent; [done|].
    intros Hin. apply Hv. by apply Htr.
Qed.

Lemma append_twice_fresh_witness :
  tracked cn_loaded /\
  ("b" ∉ _values cn_loaded) /\
  (_replace_all cn_loaded = true -> _values cn_loaded <> []) /\
  _values (append (SStr "b") cn_loaded) = ["a"; "b"] /\
  _added (append (SStr "b") cn_loaded) = [(MOD_ADD, "cn", Some "b")] /\
  exists l, get_change_list (append (SStr "b") (append (SStr "b") cn_loaded))
            = ChangeList l /\
            count_of (add_instr "cn" "b") l = 1.
Proof.
  assert (Hn : "b" ∉ _values cn_loaded).
  { simpl. intros H. apply list_elem_of_singleton in H. discriminate H. }
  assert (Hf : _replace_all cn_loaded = true -> _values cn_loaded <> []).
  { intros H. discriminate H. }
  split; [apply tracked_init|]. split; [exact Hn|]. split; [exact Hf|].
  destruct (append_twice_fresh cn_loaded "b" (tracked_init _ _ _) Hn Hf)
    as (_ & Hvals & Hadded & _ & Hlist).
  split; [exact Hvals|]. split; [exact Hadded|]. exact Hlist.
Defined.

(** C8, as stated, fails on a tracker that already stores the value: both
    calls are skipped and the change list has no add instruction for it. *)
Lemma append_twice_member_counterexample :
  get_change_list (append (SStr "a") (append (SStr "a") cn_loaded)) = ChangeList [] /\
  ~ (exists l, get_change_list (append (SStr "a") (append (SStr "a") cn_loaded))
               = ChangeList l /\
               count_of (add_instr "cn" "a") l = 1).
Proof.
  assert (H : get_change_list (append (SStr "a") (append (SStr "a") cn_loaded))
              = ChangeList []) by reflexivity.
  split; [exact H|]. intros (l & Hl & Hc). rewrite H in Hl.
  injection Hl as <-. discriminate Hc.
Qed.

End Tracker.

(** ** The connection and its reconnect decorators *)

Section Connection.
Import LdapConnection.
Variable L : ldap_lib.

(** The undecorated body of a primitive: one library call on the current
    session. *)
Lemma primitive_body (p : primitive) (s : st) (lo : handle) :
  _lo (conn s) = Some lo ->
  match p with
  | PAdd dn attrs => add_body L dn attrs
  | PModify dn change => modify_body L dn change
  | PDelete dn => delete_body L dn
  end s
  = (checked (primitive_expects p) (primitive_answer L p (log s) lo),
     mkst (conn s) (log s ++ [primitive_call p lo])).
Proof.
  intros Hlo.
  destruct p; unfold add_body, modify_body, delete_body, bind, the_lo, invoke;
    rewrite Hlo; simpl;
    match goal with |- context [checked _ ?o] => destruct o as [r|e|] end;
    simpl; try reflexivity;
    unfold raise, ret; case_bool_decide; reflexivity.
Qed.

(** A reconnect that succeeds: a fresh session, bound with the stored
    login and password. *)
Lemma connect_ok (s : st) (lo' : handle) (b : res_type * list entry) :
  initialize L (log s) (_uri (conn s)) = Return lo' ->
  simple_bind_s L (log s ++ [CInitialize (_uri (conn s))]) lo'
                (_login (conn s)) (_password (conn s)) = Return b ->
  _connect L s
  = (Return (),
     mkst (set_lo lo' (conn s))
          (log s ++ [CInitialize (_uri (conn s));
                     CBind lo' (_login (conn s)) (_password (conn s))])).
Proof.
  intros Hi Hb. unfold _connect, bind, get_conn, invoke, ret. simpl.
  rewrite Hi. simpl. rewrite Hb. simpl. by rewrite <- app_assoc.
Qed.

(** A decorated call whose body does not raise server-down is the body. *)
Lemma retry_not_down {A} (func : M st A) (s s1 : st) (o : outcome A) :
  func s = (o, s1) -> o <> Raise SERVER_DOWN ->
  _retry_on_disconnect L func s = (o, s1).
Proof.
  intros Hf Ho. unfold _retry_on_disconnect. rewrite Hf.
  destruct o as [a|e|]; try reflexivity. destruct e; try reflexivity. done.
Qed.

(** A decorated call whose body raises server-down reconnects and runs the
    body once more; whatever that second run does is the result. *)
Lemma retry_down {A} (func : M st A) (s s1 s2 : st) :
  func s = (Raise SERVER_DOWN, s1) ->
  _connect L s1 = (Return (), s2) ->
  _retry_on_disconnect L func s = func s2.
Proof.
  intros Hf Hc. unfold _retry_on_disconnect, bind. by rewrite Hf, Hc.
Qed.

Lemma run_primitive_body (p : primitive) :
  run_primitive L p
  = _retry_on_disconnect L
      match p with
      | PAdd dn attrs => add_body L dn attrs
      | PModify dn change => modify_body L dn change
      | PDelete dn => delete_body L dn
      end.
Proof. by destruct p. Qed.

(** C4, as the code has it. [add], [modify] and [delete]: when the library
    call raises server-down, the connection makes one new session, binds it
    with the stored login and password, and issues the call once more on
    it; the outcome of that second call, an error included, is the outcome
    of the operation, and nothing else is called. The search: the same,
    when the search call itself raises server-down. [authenticate] is not
    decorated: server-down from its bind reaches the caller at once, with
    no reconnect and no second bind. *)
Theorem retry_contract :
  (forall (p : primitive) (s : st) (lo lo' : handle) (b : res_type * list entry),
     _lo (conn s) = Some lo ->
     primitive_answer L p (log s) lo = Raise SERVER_DOWN ->
     initialize L (log s ++ [primitive_call p lo]) (_uri (conn s)) = Return lo' ->
     simple_bind_s L (log s ++ [primitive_call p lo; CInitialize (_uri (conn s))])
                   lo' (_login (conn s)) (_password (conn s)) = Return b ->
     run_primitive L p s
     = (checked (primitive_expects p)
          (primitive_answer L p
             (log s ++ [primitive_call p lo; CInitialize (_uri (conn s));
                        CBind lo' (_login (conn s)) (_password (conn s))]) lo'),
        mkst (set_lo lo' (conn s))
             (log s ++ [primitive_call p lo; CInitialize (_uri (conn s));
                        CBind lo' (_login (conn s)) (_password (conn s));
                        primitive_call p lo'])))
  /\
  (forall (fuel : nat) (a : query_args) (s : st) (lo lo' : handle)
          (b : res_type * list entry),
     _lo (conn s) = Some lo ->
     search L (log s) lo (default (_base (conn s)) (q_base a)) (q_scope a)
            (q_filter a) (q_retrieve_attributes a) = Raise SERVER_DOWN ->
     initialize L
       (log s ++ [CSearch lo (default (_base (conn s)) (q_base a)) (q_scope a)
                          (q_filter a) (q_retrieve_attributes a)])
       (_uri (conn s)) = Return lo' ->
     simple_bind_s L
       (log s ++ [CSearch lo (default (_base (conn s)) (q_base a)) (q_scope a)
                          (q_filter a) (q_retrieve_attributes a);
                  CInitialize (_uri (conn s))])
       lo' (_login (conn s)) (_password (conn s)) = Return b ->
     query L fuel a RNew s
     = yield_next
         (query_next L fuel (QNew a)
            (mkst (set_lo lo' (conn s))
               (log s ++ [CSearch lo (default (_base (conn s)) (q_base a))
                                  (q_scope a) (q_filter a)
                                  (q_retrieve_attributes a);
                          CInitialize (_uri (conn s));
                          CBind lo' (_login (conn s)) (_password (conn s))]))))
  /\
  (forall (dn password : string) (s : st) (lo : handle),
     initialize L (log s) (_uri (conn s)) = Return lo ->
     simple_bind_s L (log s ++ [CInitialize (_uri (conn s))]) lo dn password
       = Raise SERVER_DOWN ->
     authenticate L dn password s
     = (Raise SERVER_DOWN,
        mkst (conn s) (log s ++ [CInitialize (_uri (conn s)); CBind lo dn password]))).
Proof.
  split; [|split].
  - intros p s lo lo' b Hlo Hdown Hi Hb.
    rewrite run_primitive_body.
    pose proof (primitive_body p s lo Hlo) as Hbody.
    rewrite Hdown in Hbody. simpl in Hbody.
    pose proof (connect_ok (mkst (conn s) (log s ++ [primitive_call p lo]))
                  lo' b Hi) as Hconn.
    simpl in Hconn. rewrite <- app_assoc in Hconn. specialize (Hconn Hb).
    rewrite (retry_down _ _ _ _ Hbody Hconn).
    rewrite (primitive_body p (mkst (set_lo lo' (conn s)) _) lo' eq_refl).
    simpl. by rewrite <- !app_assoc.
  - intros fuel a s lo lo' b Hlo Hdown Hi Hb.
    unfold query, _retry_on_disconnect_gen.
    assert (Hfirst : query_next L fuel (QNew a) s
              = (Raise SERVER_DOWN, QDone,
                 mkst (conn s)
                   (log s ++ [CSearch lo (default (_base (conn s)) (q_base a))
                                (q_scope a) (q_filter a)
                                (q_retrieve_attributes a)]))).
    { unfold query_next, query_enter, bind, get_conn, the_lo, invoke.
      rewrite Hlo. simpl. by rewrite Hdown. }
    rewrite Hfirst.
    pose proof (connect_ok
                  (mkst (conn s)
                     (log s ++ [CSearch lo (default (_base (conn s)) (q_base a))
                                  (q_scope a) (q_filter a)
                                  (q_retrieve_attributes a)]))
                  lo' b Hi) as Hconn.
    simpl in Hconn. rewrite <- app_assoc in Hconn. specialize (Hconn Hb).
    rewrite Hconn. simpl. by rewrite <- !app_assoc.
  - intros dn password s lo Hi Hdown.
    unfold authenticate, bind, get_conn, invoke. rewrite Hi. simpl.
    rewrite Hdown. by rewrite <- app_assoc.
Qed.

(** C5, as the code has it. The [try] of the wrapper covers the first
    result only. Server-down raised before the first result makes the
    connection reconnect: when the reconnect succeeds, the search starts
    again from the beginning and its first step is what the caller sees;
    when the reconnect fails, its error reaches the caller and no new
    search is made. Once a result has been handed out the wrapper only
    forwards, and server-down raised by a later step reaches the caller
    from the very state the inner generator left, with no reconnect. *)
Theorem search_restart_first_result_only :
  (forall (fuel : nat) (a : query_args) (s s1 s2 : st) (gen : query_gen),
     query_next L fuel (QNew a) s = (Raise SERVER_DOWN, gen, s1) ->
     _connect L s1 = (Return (), s2) ->
     query L fuel a RNew s = yield_next (query_next L fuel (QNew a) s2))
  /\
  (forall (fuel : nat) (a : query_args) (s s1 s2 : st) (gen : query_gen) (e : exn),
     query_next L fuel (QNew a) s = (Raise SERVER_DOWN, gen, s1) ->
     _connect L s1 = (Raise e, s2) ->
     query L fuel a RNew s = (Raise e, RDone, s2))
  /\
  (forall (fuel : nat) (a : query_args) (r0 r : retry_gen query_gen) (s s' : st)
          (x : entry),
     query L fuel a r0 s = (Return x, r, s') -> exists gen, r = RRunning gen)
  /\
  (forall (fuel : nat) (a : query_args) (gen gen' : query_gen) (s s1 : st),
     query_next L fuel gen s = (Raise SERVER_DOWN, gen', s1) ->
     query L fuel a (RRunning gen) s = (Raise SERVER_DOWN, RDone, s1)).
Proof.
  split; [|split; [|split]].
  - intros fuel a s s1 s2 gen Hdown Hconn.
    unfold query, _retry_on_disconnect_gen. by rewrite Hdown, Hconn.
  - intros fuel a s s1 s2 gen e Hdown Hconn.
    unfold query, _retry_on_disconnect_gen. by rewrite Hdown, Hconn.
  - intros fuel a r0 r s s' x. unfold query, _retry_on_disconnect_gen.
    assert (Hy : forall t : outcome entry * query_gen * st,
               yield_next t = (Return x, r, s') -> exists gen, r = RRunning gen).
    { intros [[[y|e|] g] t]; simpl; intros [= _ <- _]; eauto. }
    destruct r0 as [|gen|]; [|apply Hy|discriminate].
    destruct (query_next L fuel (QNew a) s) as [[[y|e|] g] t] eqn:Hq;
      [apply Hy| |apply Hy].
    destruct e; try apply Hy.
    destruct (_connect L t) as [[u|e|] t']; [apply Hy|discriminate|discriminate].
  - intros fuel a gen gen' s s1 Hdown.
    unfold query, _retry_on_disconnect_gen. by rewrite Hdown.
Qed.

End Connection.

Section ConnectionExamples.
Import LdapConnection.

Lemma retry_contract_witness :
  run_primitive (scripted [Fail SERVER_DOWN])
    (PModify jack_dn [EMod (MOD_REPLACE, "loginShell", Some "/bin/zsh")]) st0
  = (Return (),
     mkst (set_lo 2 conn0)
       [CModify 0 jack_dn [EMod (MOD_REPLACE, "loginShell", Some "/bin/zsh")];
        CInitialize "ldap://localhost";
        CBind 2 "cn=admin,dc=example,dc=com" "admin";
        CModify 2 jack_dn [EMod (MOD_REPLACE, "loginShell", Some "/bin/zsh")]])
  /\
  query (scripted [Fail SERVER_DOWN; Ok; Ok; Ok; Data RES_SEARCH_ENTRY [jack_entry]])
        3 search_all RNew st0
  = (Return jack_entry, RRunning (QLoop 4),
     mkst (set_lo 2 conn0)
       [CSearch 0 "dc=example,dc=com" SCOPE_SUBTREE "(objectClass=*)" None;
        CInitialize "ldap://localhost";
        CBind 2 "cn=admin,dc=example,dc=com" "admin";
        CSearch 2 "dc=example,dc=com" SCOPE_SUBTREE "(objectClass=*)" None;
        CResult 2 4 0])
  /\
  authenticate (scripted [Ok; Fail SERVER_DOWN]) jack_dn "secret" st0
  = (Raise SERVER_DOWN,
     mkst conn0 [CInitialize "ldap://localhost"; CBind 1 jack_dn "secret"]).
Proof.
  split; [|split].
  - exact (proj1 (retry_contract (scripted [Fail SERVER_DOWN]))
             (PModify jack_dn [EMod (MOD_REPLACE, "loginShell", Some "/bin/zsh")])
             st0 0 2 (RES_BIND, []) eq_refl eq_refl eq_refl eq_refl).
  - exact (proj1 (proj2 (retry_contract
             (scripted [Fail SERVER_DOWN; Ok; Ok; Ok;
                        Data RES_SEARCH_ENTRY [jack_entry]])))
             3 search_all st0 0 2 (RES_BIND, []) eq_refl eq_refl eq_refl eq_refl).
  - exact (proj2 (proj2 (retry_contract (scripted [Ok; Fail SERVER_DOWN])))
             jack_dn "secret" st0 1 eq_refl eq_refl).
Defined.

(** C4, as stated, fails for [authenticate]: server-down from its bind
    reaches the caller after two library calls, with no reconnect and no
    second attempt, although every further call would have succeeded. *)
Lemma authenticate_no_retry_counterexample :
  authenticate (scripted [Ok; Fail SERVER_DOWN]) jack_dn "secret" st0
  = (Raise SERVER_DOWN,
     mkst conn0 [CInitialize "ldap://localhost"; CBind 1 jack_dn "secret"]) /\
  (forall s, authenticate (scripted [Ok; Fail SERVER_DOWN]) jack_dn "secret" st0
             <> (Return true, s)).
Proof.
  assert (H : authenticate (scripted [Ok; Fail SERVER_DOWN]) jack_dn "secret" st0
              = (Raise SERVER_DOWN,
                 mkst conn0 [CInitialize "ldap://localhost";
                             CBind 1 jack_dn "secret"])) by reflexivity.
  split; [exact H|]. intros s. rewrite H. discriminate.
Qed.

Lemma search_restart_first_result_only_witness :
  query (scripted drop_before_first) 3 search_all RNew st0
  = (Return jack_entry, RRunning (QLoop 5),
     mkst (set_lo 3 conn0)
       [CSearch 0 "dc=example,dc=com" SCOPE_SUBTREE "(objectClass=*)" None;
        CResult 0 1 0;
        CInitialize "ldap://localhost";
        CBind 3 "cn=admin,dc=example,dc=com" "admin";
        CSearch 3 "dc=example,dc=com" SCOPE_SUBTREE "(objectClass=*)" None;
        CResult 3 5 0])
  /\
  query (scripted reconnect_refused) 3 search_all RNew st0
  = (Raise SERVER_DOWN, RDone,
     mkst conn0
       [CSearch 0 "dc=example,dc=com" SCOPE_SUBTREE "(objectClass=*)" None;
        CResult 0 1 0;
        CInitialize "ldap://localhost"])
  /\
  (exists gen, RRunning (QLoop 1) = RRunning gen)
  /\
  query (scripted drop_after_first) 3 search_all (RRunning (QLoop 1)) after_first
  = (Raise SERVER_DOWN, RDone, after_second).
Proof.
  split; [|split; [|split]].
  - exact (proj1 (search_restart_first_result_only (scripted drop_before_first))
             3 search_all st0
             (mkst conn0
                [CSearch 0 "dc=example,dc=com" SCOPE_SUBTREE "(objectClass=*)" None;
                 CResult 0 1 0])
             (mkst (set_lo 3 conn0)
                [CSearch 0 "dc=example,dc=com" SCOPE_SUBTREE "(objectClass=*)" None;
                 CResult 0 1 0;
                 CInitialize "ldap://localhost";
                 CBind 3 "cn=admin,dc=example,dc=com" "admin"])
             QDone eq_refl eq_refl).
  - exact (proj1 (proj2 (search_restart_first_result_only (scripted reconnect_refused)))
             3 search_all st0
             (mkst conn0
                [CSearch 0 "dc=example,dc=com" SCOPE_SUBTREE "(objectClass=*)" None;
                 CResult 0 1 0])
             (mkst conn0
                [CSearch 0 "dc=example,dc=com" SCOPE_SUBTREE "(objectClass=*)" None;
                 CResult 0 1 0;
                 CInitialize "ldap://localhost"])
             QDone SERVER_DOWN eq_refl eq_refl).
  - exact (proj1 (proj2 (proj2
             (search_restart_first_result_only (scripted drop_after_first))))
             3 search_all RNew (RRunning (QLoop 1)) st0 after_first jack_entry
             eq_refl).
  - exact (proj2 (proj2 (proj2
             (search_restart_first_result_only (scripted drop_after_first))))
             3 search_all (QLoop 1) QDone after_first after_second eq_refl).
Defined.

(** C5, as stated, fails once a result has been handed out: the first step
    of the search yields an entry, the second meets server-down, and the
    caller gets that error; the log shows no reconnect and no new search. *)
Lemma search_drop_after_first_counterexample :
  query (scripted drop_after_first) 3 search_all RNew st0
  = (Return jack_entry, RRunning (QLoop 1), after_first) /\
  query (scripted drop_after_first) 3 search_all (RRunning (QLoop 1)) after_first
  = (Raise SERVER_DOWN, RDone, after_second).
Proof. split; reflexivity. Qed.

End ConnectionExamples.

(** ** The entry *)

Section Node.
Import LdapConnection LdapNode.
Variable L : ldap_lib.
Variable object__setattr__ : string -> value -> LdapNode.t -> LdapNode.t.

(** *** The log only grows *)

Lemma connect_extends (s : st) :
  exists rest, log (_connect L s).2 = log s ++ rest.
Proof.
  unfold _connect, bind, get_conn, invoke, ret. simpl.
  destruct (initialize L (log s) _) as [lo|e|]; simpl; eauto.
  destruct (simple_bind_s L _ lo _ _) as [b|e|]; simpl;
    rewrite <- app_assoc; eauto.
Qed.

(** A primitive on a bound connection: its library call is the first
    thing it adds to the log. *)
Lemma run_primitive_first_call (p : primitive) (s : st) (lo : handle) :
  _lo (conn s) = Some lo ->
  exists rest, log (run_primitive L p s).2 = log s ++ primitive_call p lo :: rest.
Proof.
  intros Hlo. rewrite run_primitive_body. unfold _retry_on_disconnect.
  rewrite (primitive_body L p s lo Hlo).
  set (body := match p with
               | PAdd dn attrs => add_body L dn attrs
               | PModify dn change => modify_body L dn change
               | PDelete dn => delete_body L dn
               end).
  assert (Hdown : exists rest,
            log ((_connect L ;; body)
                   (mkst (conn s) (log s ++ [primitive_call p lo]))).2
            = log s ++ primitive_call p lo :: rest).
  { unfold bind.
    destruct (connect_extends (mkst (conn s) (log s ++ [primitive_call p lo])))
      as [r1 Hr1].
    destruct (_connect L _) as [[u|e|] s2]; simpl in *.
    - assert (Hb : exists r2, log (body s2).2 = log s2 ++ r2).
      { unfold body. destruct p;
          unfold add_body, modify_body, delete_body, bind, the_lo, invoke, raise, ret;
          (destruct (_lo (conn s2)); simpl; [|by exists []; rewrite app_nil_r]);
          match goal with
          | |- context [match ?o with Return _ => _ | Raise _ => _ | OutOfFuel => _ end] =>
              destruct o as [r|e|]
          end; simpl; try case_bool_decide; simpl; eauto. }
      destruct Hb as [r2 Hb]. rewrite Hb, Hr1, <- !app_assoc. simpl. eauto.
    - rewrite Hr1, <- app_assoc. simpl. eauto.
    - rewrite Hr1, <- app_assoc. simpl. eauto. }
  destruct (checked _ _) as [u|e|]; simpl; [by exists []| |by exists []].
  destruct e; simpl; try (by exists []). exact Hdown.
Qed.

(** *** [save], path by path *)

(** The node that a successful [save] leaves. *)
Lemma save_new_eq (n : LdapNode.t) (s : st) (attr : gmap string LdapAttribute.t) :
  _new n = true -> _attr n = Some attr ->
  save L (n, s)
  = match add L (_dn n) (add_list attr) s with
    | (Return _, s1) =>
        (Return (),
         (LdapNode.mk (_dn n) (_valid n) [] false
            (Some (LdapAttribute.discard_change_list <$> attr)), s1))
    | (Raise e, s1) => (Raise e, (n, s1))
    | (OutOfFuel, s1) => (OutOfFuel, (n, s1))
    end.
Proof.
  intros Hnew Hattr. unfold save, bind, get_self, on_conn. simpl.
  rewrite Hnew, Hattr. simpl.
  by destruct (add L (_dn n) (add_list attr) s) as [[u|e|] s1].
Qed.

Lemma save_old_eq (n : LdapNode.t) (s : st) (attr : gmap string LdapAttribute.t) :
  _new n = false -> _attr n = Some attr ->
  save L (n, s)
  = if Nat.eqb (length (modify_list (_to_delete n) attr)) 0 then (Return (), (n, s))
    else
      match modify L (_dn n) (modify_list (_to_delete n) attr) s with
      | (Return _, s1) =>
          (Return (),
           (LdapNode.mk (_dn n) (_valid n) [] false
              (Some (LdapAttribute.discard_change_list <$> attr)), s1))
      | (Raise e, s1) => (Raise e, (n, s1))
      | (OutOfFuel, s1) => (OutOfFuel, (n, s1))
      end.
Proof.
  intros Hnew Hattr. unfold save, bind, get_self, on_conn. simpl.
  rewrite Hnew, Hattr. simpl.
  destruct (Nat.eqb _ 0); [done|]. simpl.
  by destruct (modify L (_dn n) _ s) as [[u|e|] s1].
Qed.

(** The list that [save] builds with [extend], as one concatenation. *)
Lemma modify_list_concat (to_delete : list string)
  (attr : gmap string LdapAttribute.t) :
  modify_list to_delete attr
  = ((fun x => EMod (MOD_DELETE, x, None)) <$> to_delete)
    ++ concat ((fun a => iter_change (LdapAttribute.get_change_list a))
                 <$> values attr).
Proof.
  unfold modify_list. generalize ((fun x => EMod (MOD_DELETE, x, None)) <$> to_delete).
  induction (values attr) as [|a l IH]; intros init; simpl.
  - by rewrite app_nil_r.
  - rewrite IH. by rewrite <- app_assoc.
Qed.

(** Reading a name that the fetched mapping does not hold raises the same
    [AttributeError], here by the explicit [raise] of [__getattr__]. *)
Lemma getattr_missing (fuel : nat) (n : LdapNode.t) (s : st)
  (attr : gmap string LdapAttribute.t) (name : string) :
  _attr n = Some attr -> attr !! name = None ->
  String.prefix "is_" name = false ->
  __getattr__ L fuel name (n, s) = (Raise AttributeError, (n, s)).
Proof.
  intros Hattr Hname His.
  unfold __getattr__, fetched_attr, bind, get_self, ret, raise. simpl.
  by rewrite Hattr, His, Hname.
Qed.

(** C7, evaluated on the code: [save] on an entry that is not new and whose
    mapping was never fetched stops at [self._attr.values()] with the
    interpreter's [AttributeError]; the node, the connection and the log of
    library calls are as before. *)
Theorem save_unfetched (n : LdapNode.t) (s : st) :
  _new n = false -> _attr n = None ->
  save L (n, s) = (Raise AttributeError, (n, s)).
Proof.
  intros Hnew Hattr. unfold save, bind, get_self. simpl. by rewrite Hnew, Hattr.
Qed.

(** C10: [save] on a new entry with an empty mapping calls [add] with an
    empty attribute list, whatever comes of it; an entry that is not new
    and has an empty change list returns without a library call. *)
Theorem save_new_without_attributes :
  (forall (n : LdapNode.t) (s : st) (lo : handle),
     _new n = true -> _attr n = Some ∅ -> _lo (conn s) = Some lo ->
     exists o n' s' rest,
       save L (n, s) = (o, (n', s')) /\
       log s' = log s ++ CAdd lo (_dn n) [] :: rest)
  /\
  (forall (n : LdapNode.t) (s : st) (attr : gmap string LdapAttribute.t),
     _new n = false -> _attr n = Some attr ->
     modify_list (_to_delete n) attr = [] ->
     save L (n, s) = (Return (), (n, s))).
Proof.
  split.
  - intros n s lo Hnew Hattr Hlo.
    rewrite (save_new_eq n s ∅ Hnew Hattr).
    assert (Hl : add_list ∅ = []).
    { unfold add_list, values. by rewrite map_to_list_empty. }
    rewrite Hl.
    destruct (run_primitive_first_call (PAdd (_dn n) []) s lo Hlo) as [rest Hrest].
    simpl in Hrest.
    destruct (add L (_dn n) [] s) as [[u|e|] s1]; simpl in Hrest; eauto 10.
  - intros n s attr Hnew Hattr Hempty.
    rewrite (save_old_eq n s attr Hnew Hattr). by rewrite Hempty.
Qed.

(** A [save] on the path of an entry that is not new, with a change list
    that is not empty: the [modify] call carrying that list is the first
    thing added to the log. *)
Lemma save_old_first_call (n : LdapNode.t) (s : st) (lo : handle)
  (attr : gmap string LdapAttribute.t) :
  _new n = false -> _attr n = Some attr -> _lo (conn s) = Some lo ->
  modify_list (_to_delete n) attr <> [] ->
  exists o n' s' rest,
    save L (n, s) = (o, (n', s')) /\
    log s' = log s ++ CModify lo (_dn n) (modify_list (_to_delete n) attr) :: rest.
Proof.
  intros Hnew Hattr Hlo Hne.
  rewrite (save_old_eq n s attr Hnew Hattr).
  destruct (modify_list (_to_delete n) attr) as [|c cl] eqn:Hcl; [done|]. simpl.
  destruct (run_primitive_first_call (PModify (_dn n) (c :: cl)) s lo Hlo)
    as [rest Hrest].
  simpl in Hrest.
  destruct (modify L (_dn n) (c :: cl) s) as [[u|e|] s1]; simpl in Hrest; eauto 10.
Qed.

(** C3: when [save] on an entry that is not new ends with the error of its
    [modify] call, the node is exactly as before the call: the pending
    deletions, the new flag, and every tracker with its incremental list
    and its full-replace flag. The failed [save] had handed [modify] the
    list computed from that node, and a [save] tried again, on any bound
    connection, hands [modify] the same list. *)
Theorem save_failure_keeps_dirty_state (n n' : LdapNode.t) (s s' : st) (e : exn)
  (attr : gmap string LdapAttribute.t) (lo : handle) :
  _new n = false -> _attr n = Some attr -> _lo (conn s) = Some lo ->
  save L (n, s) = (Raise e, (n', s')) ->
  n' = n /\
  (exists rest,
     log s' = log s ++ CModify lo (_dn n) (modify_list (_to_delete n) attr) :: rest) /\
  (forall (s2 : st) (lo2 : handle),
     _lo (conn s2) = Some lo2 ->
     exists o n2 s2' rest,
       save L (n', s2) = (o, (n2, s2')) /\
       log s2' = log s2 ++ CModify lo2 (_dn n) (modify_list (_to_delete n) attr) :: rest).
Proof.
  intros Hnew Hattr Hlo Hsave.
  assert (Hne : modify_list (_to_delete n) attr <> []).
  { intros Hempty. rewrite (save_old_eq n s attr Hnew Hattr), Hempty in Hsave.
    discriminate Hsave. }
  assert (Hn : n' = n).
  { rewrite (save_old_eq n s attr Hnew Hattr) in Hsave.
    destruct (Nat.eqb _ 0); [discriminate Hsave|].
    destruct (modify L (_dn n) _ s) as [[u|e1|] s1]; by inversion Hsave. }
  subst n'. split; [done|]. split.
  - destruct (save_old_first_call n s lo attr Hnew Hattr Hlo Hne)
      as (o & n1 & s1 & rest & Heq & Hlog).
    rewrite Hsave in Heq. inversion Heq; subst. eauto.
  - intros s2 lo2 Hlo2. by apply save_old_first_call.
Qed.

(** C2, evaluated on the code: for a tracker whose full-replace flag is set
    and whose value set is empty, [get_change_list] returns the bare tuple,
    not a list holding it; [extend] in [save] then adds the tuple's three
    components to the list, and [modify] is called with the verb, the name
    and [None] as three separate elements instead of one delete-attribute
    instruction. *)
Theorem save_emptied_attribute (n : LdapNode.t) (s : st) (lo : handle)
  (name : string) (a : LdapAttribute.t) :
  _new n = false -> _to_delete n = [] -> _attr n = Some {[ name := a ]} ->
  LdapAttribute._replace_all a = true -> LdapAttribute._values a = [] ->
  _lo (conn s) = Some lo ->
  LdapAttribute.get_change_list a
    = ChangeTuple (MOD_DELETE, LdapAttribute._name a, None) /\
  modify_list (_to_delete n) {[ name := a ]}
    = [EOp MOD_DELETE; EStr (LdapAttribute._name a); ENone] /\
  exists o n' s' rest,
    save L (n, s) = (o, (n', s')) /\
    log s' = log s ++ CModify lo (_dn n)
                        [EOp MOD_DELETE; EStr (LdapAttribute._name a); ENone] :: rest.
Proof.
  intros Hnew Hdel Hattr Hflag Hvals Hlo.
  assert (Hg : LdapAttribute.get_change_list a
               = ChangeTuple (MOD_DELETE, LdapAttribute._name a, None)).
  { unfold LdapAttribute.get_change_list, LdapAttribute.__len__.
    by rewrite Hflag, Hvals. }
  assert (Hm : modify_list (_to_delete n) {[ name := a ]}
               = [EOp MOD_DELETE; EStr (LdapAttribute._name a); ENone]).
  { rewrite modify_list_concat, Hdel. unfold values.
    rewrite map_to_list_singleton. simpl. by rewrite Hg. }
  split; [done|]. split; [done|].
  rewrite <- Hm. apply save_old_first_call; try done. by rewrite Hm.
Qed.

(** *** After [delete()] *)

(** C6, evaluated on the code: [delete()] clears [_valid], and nothing reads
    it. On an entry deleted with success, reading an attribute that is in
    the mapping returns its tracker and writing it replaces its values, with
    no error and no library call. *)
Theorem access_after_delete (fuel : nat) (n n' : LdapNode.t) (s s' : st)
  (attr : gmap string LdapAttribute.t) (name : string) (a : LdapAttribute.t) :
  LdapNode.delete L (n, s) = (Return (), (n', s')) ->
  _attr n = Some attr -> attr !! name = Some a ->
  String.prefix "is_" name = false -> String.prefix "_" name = false ->
  _valid n' = false /\
  __getattr__ L fuel name (n', s') = (Return (GotAttr a), (n', s')) /\
  (forall v : value,
     __setattr__ L object__setattr__ fuel name v (n', s')
     = (Return (),
        (LdapNode.mk (_dn n) false (_to_delete n) (_new n)
           (Some (<[name := LdapAttribute.set_value v a]> attr)), s'))).
Proof.
  intros Hdel Hattr Hname His Hpriv.
  assert (Hn : n' = LdapNode.mk (_dn n) false (_to_delete n) (_new n) (_attr n)).
  { unfold LdapNode.delete, bind, get_self, on_conn, set_self in Hdel.
    simpl in Hdel.
    destruct (LdapConnection.delete L (_dn n) s) as [[u|e|] s1];
      by inversion Hdel. }
  subst n'. split; [done|]. split.
  - unfold __getattr__, fetched_attr, bind, get_self, ret. simpl.
    by rewrite Hattr, His, Hname.
  - intros v. unfold __setattr__, fetched_attr, set_attr, set_self, bind,
      get_self, ret.
    rewrite Hpriv. simpl. by rewrite Hattr, Hname.
Qed.

(** *** The pending deletions and the mapping *)

Lemma pending_absent_init (dn : string) (new : bool) :
  pending_absent (LdapNode.__init__ dn new).
Proof. unfold pending_absent. destruct new; simpl; [|done]. by intros name H%elem_of_nil. Qed.

(** The fetch block leaves the pending deletions alone, and when it returns
    a mapping, that mapping is the node's. *)
Lemma fetched_attr_inv (fuel : nat) (n n1 : LdapNode.t) (s s1 : st)
  (o : outcome (gmap string LdapAttribute.t)) :
  fetched_attr L fuel (n, s) = (o, (n1, s1)) ->
  pending_absent n ->
  pending_absent n1 /\ _to_delete n1 = _to_delete n /\
  (forall attr, o = Return attr -> _attr n1 = Some attr).
Proof.
  intros Hf Hinv. unfold fetched_attr, bind, get_self in Hf. simpl in Hf.
  destruct (_attr n) as [attr0|] eqn:Hattr.
  - unfold ret in Hf. inversion Hf; subst. split; [done|]. split; [done|].
    by intros attr [= <-].
  - unfold on_conn in Hf. simpl in Hf.
    destruct (list_ fuel _ RNew [] s) as [[res|e|] s2].
    + destruct res as [|x res]; unfold raise, set_self, ret in Hf; simpl in Hf;
        inversion Hf; subst.
      * split; [done|]. split; [done|]. by intros attr [=].
      * unfold pending_absent in *. rewrite Hattr in Hinv. simpl.
        split; [|split; [done|by intros attr [= <-]]].
        rewrite Hinv. by intros name H%elem_of_nil.
    + inversion Hf; subst. split; [done|]. split; [done|]. by intros attr [=].
    + inversion Hf; subst. split; [done|]. split; [done|]. by intros attr [=].
Qed.

Lemma getattr_inv (fuel : nat) (name : string) (s1 s2 : nst) (o : outcome got) :
  __getattr__ L fuel name s1 = (o, s2) ->
  pending_absent s1.1 -> pending_absent s2.1.
Proof.
  destruct s1 as [n s]. intros Hg Hinv. unfold __getattr__, bind in Hg.
  destruct (fetched_attr L fuel (n, s)) as [oa [n1 t1]] eqn:Hf.
  destruct (fetched_attr_inv _ _ _ _ _ _ Hf Hinv) as (Hinv1 & _ & _).
  destruct oa as [attr|e|]; [|by inversion Hg; subst..].
  destruct (String.prefix "is_" name).
  - destruct (attr !! "objectClass"); unfold ret, raise in Hg; by inversion Hg; subst.
  - destruct (attr !! name); unfold ret, raise in Hg; by inversion Hg; subst.
Qed.

Lemma delattr_inv (fuel : nat) (name : string) (s1 s2 : nst) (o : outcome unit) :
  __delattr__ L fuel name s1 = (o, s2) ->
  pending_absent s1.1 -> pending_absent s2.1.
Proof.
  destruct s1 as [n s]. intros Hd Hinv. unfold __delattr__, bind in Hd.
  destruct (fetched_attr L fuel (n, s)) as [oa [n1 t1]] eqn:Hf.
  destruct (fetched_attr_inv _ _ _ _ _ _ Hf Hinv) as (Hinv1 & _ & Hret).
  destruct oa as [attr|e|]; [|by inversion Hd; subst..].
  specialize (Hret attr eq_refl).
  destruct (attr !! name) as [a|] eqn:Hname;
    unfold set_attr, set_self, raise in Hd; simpl in Hd; inversion Hd; subst;
    [|done].
  unfold pending_absent in *. rewrite Hret in Hinv1. simpl.
  intros x Hx. apply elem_of_app in Hx as [Hx|Hx].
  - apply lookup_delete_None. right. by apply Hinv1.
  - apply list_elem_of_singleton in Hx. subst x. apply lookup_delete_eq.
Qed.

Lemma setattr_inv (fuel : nat) (name : string) (v : value) (s1 s2 : nst)
  (o : outcome unit) :
  String.prefix "_" name = false ->
  name ∉ _to_delete s1.1 ->
  __setattr__ L object__setattr__ fuel name v s1 = (o, s2) ->
  pending_absent s1.1 -> pending_absent s2.1.
Proof.
  destruct s1 as [n s]. intros Hpriv Hfree Hs Hinv.
  unfold __setattr__ in Hs. rewrite Hpriv in Hs. unfold bind in Hs.
  destruct (fetched_attr L fuel (n, s)) as [oa [n1 t1]] eqn:Hf.
  destruct (fetched_attr_inv _ _ _ _ _ _ Hf Hinv) as (Hinv1 & Hdel & Hret).
  destruct oa as [attr|e|]; [|by inversion Hs; subst..].
  specialize (Hret attr eq_refl). simpl in Hfree. rewrite <- Hdel in Hfree.
  assert (Hins : forall a, pending_absent
            (LdapNode.mk (_dn n1) (_valid n1) (_to_delete n1) (_new n1)
                         (Some (<[name := a]> attr)))).
  { intros a. unfold pending_absent in *. rewrite Hret in Hinv1. simpl.
    intros x Hx. rewrite lookup_insert_ne; [by apply Hinv1|].
    intros ->. by apply Hfree. }
  destruct (attr !! name) as [a|];
    unfold set_attr, set_self in Hs; simpl in Hs; inversion Hs; subst; apply Hins.
Qed.

(** C9, as the code has it: the invariant holds on a fresh entry and after
    every sequence of attribute reads, deletes and writes in which no write
    names an attribute that is pending deletion. *)
Theorem pending_absent_run (s s' : nst) :
  pending_absent s.1 ->
  attribute_run L object__setattr__ s s' ->
  pending_absent s'.1.
Proof.
  intros Hinv Hrun. induction Hrun as
    [s|s s1 s2 fuel name o _ IH Hg|s s1 s2 fuel name o _ IH Hd
     |s s1 s2 fuel name v o _ IH Hpriv Hfree Hs].
  - exact Hinv.
  - exact (getattr_inv _ _ _ _ _ Hg (IH Hinv)).
  - exact (delattr_inv _ _ _ _ _ Hd (IH Hinv)).
  - exact (setattr_inv _ _ _ _ _ _ Hpriv Hfree Hs (IH Hinv)).
Qed.

End Node.

Section NodeExamples.
Import LdapConnection LdapNode.

Lemma save_unfetched_witness :
  _new (get_ldap_node jack_dn) = false /\ _attr (get_ldap_node jack_dn) = None /\
  save (scripted []) (get_ldap_node jack_dn, st0)
  = (Raise AttributeError, (get_ldap_node jack_dn, st0)).
Proof.
  split; [reflexivity|]. split; [reflexivity|].
  exact (save_unfetched (scripted []) (get_ldap_node jack_dn) st0 eq_refl eq_refl).
Defined.

Lemma save_new_without_attributes_witness :
  (exists o n' s' rest,
     save (scripted []) (new_ldap_node jack_dn, st0) = (o, (n', s')) /\
     log s' = log st0 ++ CAdd 0 jack_dn [] :: rest) /\
  save (scripted []) (jack_node, st0) = (Return (), (jack_node, st0)).
Proof.
  split.
  - exact (proj1 (save_new_without_attributes (scripted []))
             (new_ldap_node jack_dn) st0 0 eq_refl eq_refl eq_refl).
  - exact (proj2 (save_new_without_attributes (scripted []))
             jack_node st0 _ eq_refl eq_refl eq_refl).
Defined.

Lemma save_failure_keeps_dirty_state_witness :
  save (scripted drop_twice) (jack_zsh, st0)
    = (Raise SERVER_DOWN, (jack_zsh, after_drop_twice)) /\
  (forall (s2 : st) (lo2 : handle),
     _lo (conn s2) = Some lo2 ->
     exists o n2 s2' rest,
       save (scripted drop_twice) (jack_zsh, s2) = (o, (n2, s2')) /\
       log s2' = log s2 ++ CModify lo2 jack_dn
                             [EMod (MOD_REPLACE, "loginShell", Some "/bin/zsh")] :: rest).
Proof.
  assert (H : save (scripted drop_twice) (jack_zsh, st0)
              = (Raise SERVER_DOWN, (jack_zsh, after_drop_twice))) by reflexivity.
  split; [exact H|].
  exact (proj2 (proj2 (save_failure_keeps_dirty_state (scripted drop_twice)
           jack_zsh jack_zsh st0 after_drop_twice SERVER_DOWN _ 0
           eq_refl eq_refl eq_refl H))).
Defined.

Lemma save_emptied_attribute_witness :
  LdapAttribute.get_change_list
    (LdapAttribute.set_value (PyList [])
       (LdapAttribute.__init__ "loginShell" (PyList ["/bin/bash"]) false))
  = ChangeTuple (MOD_DELETE, "loginShell", None) /\
  exists o n' s' rest,
    save (scripted []) (jack_emptied, st0) = (o, (n', s')) /\
    log s' = log st0 ++ CModify 0 jack_dn
                          [EOp MOD_DELETE; EStr "loginShell"; ENone] :: rest.
Proof.
  pose proof (save_emptied_attribute (scripted []) jack_emptied st0 0 "loginShell"
                (LdapAttribute.set_value (PyList [])
                   (LdapAttribute.__init__ "loginShell" (PyList ["/bin/bash"]) false))
                eq_refl eq_refl eq_refl eq_refl eq_refl eq_refl) as (Hg & _ & Hs).
  split; [exact Hg|exact Hs].
Defined.

Lemma access_after_delete_witness :
  LdapNode.delete (scripted []) (jack_node, st0)
  = (Return (),
     (LdapNode.mk jack_dn false [] false (_attr jack_node),
      mkst conn0 [CDelete 0 jack_dn])) /\
  __getattr__ (scripted []) 0 "loginShell"
    (LdapNode.mk jack_dn false [] false (_attr jack_node),
     mkst conn0 [CDelete 0 jack_dn])
  = (Return (GotAttr (LdapAttribute.__init__ "loginShell" (PyList ["/bin/bash"]) false)),
     (LdapNode.mk jack_dn false [] false (_attr jack_node),
      mkst conn0 [CDelete 0 jack_dn])).
Proof.
  assert (H : LdapNode.delete (scripted []) (jack_node, st0)
              = (Return (),
                 (LdapNode.mk jack_dn false [] false (_attr jack_node),
                  mkst conn0 [CDelete 0 jack_dn]))) by reflexivity.
  split; [exact H|].
  exact (proj1 (proj2 (access_after_delete (scripted []) no_private 0
           jack_node _ st0 _ _ "loginShell" _ H eq_refl eq_refl eq_refl eq_refl))).
Defined.

Lemma pending_absent_run_witness :
  pending_absent jack_node /\
  pending_absent
    (__setattr__ (scripted []) no_private 0 "sn" (Scalar (SStr "Jack"))
       jack_deleted).2.1.
Proof.
  assert (Hinv : pending_absent jack_node).
  { intros name H. by apply elem_of_nil in H. }
  assert (Hfree : "sn" ∉ _to_delete jack_deleted.1).
  { intros H. apply list_elem_of_singleton in H. discriminate H. }
  split; [exact Hinv|].
  apply (pending_absent_run (scripted []) no_private (jack_node, st0) _ Hinv).
  eapply (run_write _ _ _ jack_deleted _ 0 "sn" (Scalar (SStr "Jack"))).
  - eapply (run_delete _ _ _ (jack_node, st0) _ 0 "loginShell").
    + apply run_done.
    + reflexivity.
  - reflexivity.
  - exact Hfree.
  - reflexivity.
Defined.

(** C9, as stated, fails when an attribute is deleted and then set again
    before saving: the name stays on the pending-deletion list and has a
    tracker in the mapping. *)
Lemma pending_absent_counterexample :
  jack_rewritten.1
  = LdapNode.mk jack_dn true ["loginShell"] false
      (Some {[ "loginShell" :=
                 LdapAttribute.__init__ "loginShell" (Scalar (SStr "/bin/zsh")) true ]}) /\
  "loginShell" ∈ _to_delete jack_rewritten.1 /\
  (exists attr a, _attr jack_rewritten.1 = Some attr /\ attr !! "loginShell" = Some a) /\
  ~ pending_absent jack_rewritten.1.
Proof.
  assert (H : jack_rewritten.1
              = LdapNode.mk jack_dn true ["loginShell"] false
                  (Some {[ "loginShell" :=
                     LdapAttribute.__init__ "loginShell" (Scalar (SStr "/bin/zsh")) true ]}))
    by (vm_compute; reflexivity).
  assert (Hin : "loginShell" ∈ ["loginShell"]) by apply list_elem_of_here.
  rewrite H. split; [done|]. split; [exact Hin|]. split.
  - eexists _, _. split; [reflexivity|]. apply lookup_singleton_eq.
  - intros Hinv. specialize (Hinv "loginShell" Hin). simpl in Hinv.
    by rewrite lookup_singleton_eq in Hinv.
Qed.

End NodeExamples.

(** * Further properties of the code *)

(** ** The tracker: construction, runs of appends, indexing *)

Section TrackerMore.
Import LdapAttribute.

(** A run of [append] calls with string values: what is stored grows by the
    values that were new, each once and in the order they first came, and
    one add instruction is recorded for each of them. *)
Lemma append_all (l : list string) (a : t) :
  exists new,
    _values (foldl (fun a x => append (SStr x) a) a l) = _values a ++ new /\
    _added (foldl (fun a x => append (SStr x) a) a l)
      = _added a ++ (add_instr (_name a) <$> new) /\
    _name (foldl (fun a x => append (SStr x) a) a l) = _name a /\
    _replace_all (foldl (fun a x => append (SStr x) a) a l) = _replace_all a /\
    NoDup new /\
    (forall x, x ∈ new <-> x ∈ l /\ x ∉ _values a).
Proof.
  revert a. induction l as [|y l IH]; intros a; simpl.
  - exists []. rewrite !app_nil_r.
    split; [done|]. split; [done|]. split; [done|]. split; [done|].
    split; [apply NoDup_nil_2|]. intros x. rewrite elem_of_nil. intuition congruence.
  - destruct (IH (append (SStr y) a)) as (new & Hv & Ha & Hn & Hf & Hnd & Hmem).
    assert (Hcases : ((y ∈ _values a) /\ append (SStr y) a = a) \/
                     ((y ∉ _values a) /\
                      append (SStr y) a
                      = mk (_name a) (_replace_all a)
                           (_added a ++ [add_instr (_name a) y]) (_values a ++ [y]))).
    { unfold append, scalar_in. case_bool_decide; simpl; [by left|by right]. }
    destruct Hcases as [[Hy Heq]|[Hy Heq]]; rewrite Heq in *; simpl in *.
    + exists new.
      split; [done|]. split; [done|]. split; [done|]. split; [done|].
      split; [done|]. intros x. rewrite Hmem, elem_of_cons. intuition congruence.
    + exists (y :: new). rewrite Hv, Ha, <- !app_assoc. simpl.
      split; [done|]. split; [done|]. split; [done|]. split; [done|].
      split.
      * apply NoDup_cons. split; [|done].
        rewrite Hmem, elem_of_app, list_elem_of_singleton. intuition congruence.
      * intros x.
        rewrite !elem_of_cons, Hmem, elem_of_app, list_elem_of_singleton.
        destruct (decide (x = y)) as [->|Hne]; intuition congruence.
Qed.

(** X1: a tracker constructed as freshly added from a list stores the
    members of the list without duplicates, and its change list is one add
    instruction per stored value, in the order stored. *)
Theorem init_added_from_list (name : string) (l : list string) :
  NoDup (_values (__init__ name (PyList l) true)) /\
  (forall x, x ∈ _values (__init__ name (PyList l) true) <-> x ∈ l) /\
  get_change_list (__init__ name (PyList l) true)
    = ChangeList (add_instr name <$> _values (__init__ name (PyList l) true)).
Proof.
  unfold __init__.
  destruct (append_all l (mk name false [] [])) as (new & Hv & Ha & Hn & Hf & Hnd & Hmem).
  simpl in *. unfold get_change_list. rewrite Hf, Hv, Ha. simpl.
  split; [done|]. split; [|done].
  intros x. rewrite Hmem. split; [by intros [H _]|]. intros H. split; [done|].
  by intros H'%elem_of_nil.
Qed.

(** Keeping first occurrences and filtering can be done in either order. *)
Lemma first_occurrences_filter (P : string -> Prop) `{!forall x, Decision (P x)}
  (l : list string) :
  filter P (first_occurrences l) = first_occurrences (filter P l).
Proof.
  induction l as [|x l IH]; [done|]. simpl.
  destruct (decide (P x)) as [HP|HP].
  - rewrite !filter_cons_True by done. simpl. f_equal.
    rewrite <- IH, !list_filter_filter. apply list_filter_iff. intros y. tauto.
  - rewrite !filter_cons_False by done. rewrite <- IH, list_filter_filter.
    apply list_filter_iff. intros y. split; [tauto|].
    intros HPy. split; [done|]. by intros ->.
Qed.

(** A run of [append] calls with string values, with the order: what is
    stored grows by the values that were not stored, each once, in the
    order in which they first appear in the run. *)
Lemma append_all_order (l : list string) (a : t) :
  _values (foldl (fun a x => append (SStr x) a) a l)
    = _values a ++ first_occurrences (filter (fun x => x ∉ _values a) l) /\
  _added (foldl (fun a x => append (SStr x) a) a l)
    = _added a ++ (add_instr (_name a)
                     <$> first_occurrences (filter (fun x => x ∉ _values a) l)) /\
  _replace_all (foldl (fun a x => append (SStr x) a) a l) = _replace_all a.
Proof.
  revert a. induction l as [|y l IH]; intros a; simpl.
  - by rewrite !app_nil_r.
  - destruct (IH (append (SStr y) a)) as (Hv & Ha & Hf).
    rewrite Hv, Ha, Hf. clear Hv Ha Hf.
    assert (Hcases : ((y ∈ _values a) /\ append (SStr y) a = a) \/
                     ((y ∉ _values a) /\
                      append (SStr y) a
                      = mk (_name a) (_replace_all a)
                           (_added a ++ [add_instr (_name a) y]) (_values a ++ [y]))).
    { unfold append, scalar_in. case_bool_decide; simpl; [by left|by right]. }
    destruct Hcases as [[Hy Heq]|[Hy Heq]]; rewrite Heq.
    + rewrite filter_cons_False by (intros Hn; by apply Hn). done.
    + rewrite filter_cons_True by done. simpl.
      assert (Hk : first_occurrences (filter (fun x => x ∉ _values a ++ [y]) l)
                   = filter (fun x => x <> y)
                       (first_occurrences (filter (fun x => x ∉ _values a) l))).
      { rewrite first_occurrences_filter, list_filter_filter. f_equal.
        apply list_filter_iff. intros x.
        rewrite not_elem_of_app, list_elem_of_singleton. tauto. }
      rewrite Hk, <- !app_assoc. done.
Qed.

(** X2: after values were loaded from the server, a run of [append] calls
    leaves the loaded values in front, followed by the appended values that
    were not loaded, each once and in the order in which they first appear
    in the run; the change list is exactly one add instruction for each of
    these, in that same order. *)
Theorem change_list_after_appends (name : string) (loaded l : list string) :
  _values (foldl (fun a x => append (SStr x) a) (__init__ name (PyList loaded) false) l)
    = loaded ++ first_occurrences (filter (fun x => x ∉ loaded) l) /\
  get_change_list
    (foldl (fun a x => append (SStr x) a) (__init__ name (PyList loaded) false) l)
    = ChangeList (add_instr name
                    <$> first_occurrences (filter (fun x => x ∉ loaded) l)) /\
  NoDup (first_occurrences (filter (fun x => x ∉ loaded) l)) /\
  (forall x, x ∈ first_occurrences (filter (fun x => x ∉ loaded) l)
             <-> x ∈ l /\ x ∉ loaded).
Proof.
  destruct (append_all_order l (__init__ name (PyList loaded) false))
    as (Hv & Ha & Hf).
  destruct (append_all l (__init__ name (PyList loaded) false))
    as (new & Hv' & _ & _ & _ & Hnd & Hmem).
  simpl in *.
  assert (Hnew : new = first_occurrences (filter (fun x => x ∉ loaded) l)).
  { rewrite Hv in Hv'. by apply app_inv_head in Hv'. }
  rewrite <- Hnew. split; [by rewrite Hv, Hnew|]. split.
  - unfold get_change_list. by rewrite Hf, Ha, Hnew.
  - by split.
Qed.

(** X3: [append] looks the value up as given but stores its [str]: for
    [None] the lookup never succeeds, so every call stores one more
    ["None"] and records one more add instruction, also when ["None"] is
    already stored. *)
Theorem append_none_always_stores (a : t) :
  _values (append SNone a) = _values a ++ ["None"] /\
  _added (append SNone a) = _added a ++ [add_instr (_name a) "None"] /\
  count_of "None" (_values (append SNone (append SNone a)))
    = count_of "None" (_values a) + 2.
Proof.
  split; [done|]. split; [done|]. unfold append. simpl.
  rewrite !count_of_app, !count_of_singleton. lia.
Qed.

(** A key that addresses the element after [l1], counted from the front or
    from the end. *)
Lemma py_index_middle {A} (l1 l2 : list A) (x : A) (key : Z) :
  key = Z.of_nat (length l1) \/ key = (- Z.of_nat (S (length l2)))%Z ->
  py_index key (length (l1 ++ x :: l2)) = Some (length l1).
Proof.
  intros Hkey. unfold py_index. rewrite length_app. simpl.
  destruct (Z.ltb_spec key 0) as [Hneg|Hpos].
  - assert (Hk : key = (- Z.of_nat (S (length l2)))%Z) by lia.
    assert (Hin : ((0 <=? key + Z.of_nat (length l1 + S (length l2)))
                   && (key + Z.of_nat (length l1 + S (length l2))
                       <? Z.of_nat (length l1 + S (length l2))))%Z = true).
    { apply andb_true_iff. split; [apply Z.leb_le|apply Z.ltb_lt]; lia. }
    rewrite Hin. f_equal. lia.
  - assert (Hk : key = Z.of_nat (length l1)) by lia.
    assert (Hin : ((0 <=? key) && (key <? Z.of_nat (length l1 + S (length l2))))%Z
                  = true).
    { apply andb_true_iff. split; [apply Z.leb_le|apply Z.ltb_lt]; lia. }
    rewrite Hin. f_equal. lia.
Qed.

Lemma py_index_outside (key : Z) (n : nat) :
  (key < - Z.of_nat n \/ Z.of_nat n <= key)%Z -> py_index key n = None.
Proof.
  intros Hkey. unfold py_index.
  destruct (Z.ltb_spec key 0) as [Hneg|Hpos].
  - destruct (Z.leb_spec 0 (key + Z.of_nat n)) as [H0|H0]; [lia|done].
  - destruct (Z.leb_spec 0 key) as [H0|H0]; [|lia].
    destruct (Z.ltb_spec key (Z.of_nat n)) as [H1|H1]; [lia|done].
Qed.

(** X4: an element of the value list is addressed alike by its index from
    the front and by its negative index from the end: reading returns it,
    assigning replaces it by the [str] of the new value, deleting removes
    it and nothing else; assigning and deleting set the full-replace
    flag. *)
Theorem index_in_range (a : t) (l1 l2 : list string) (x : string) (key : Z)
  (v : scalar) :
  _values a = l1 ++ x :: l2 ->
  key = Z.of_nat (length l1) \/ key = (- Z.of_nat (S (length l2)))%Z ->
  __getitem__ key a = Return x /\
  __setitem__ key v a
    = (Return (), mk (_name a) true (_added a) (l1 ++ str v :: l2)) /\
  __delitem__ key a = (Return (), mk (_name a) true (_added a) (l1 ++ l2)).
Proof.
  intros Hvals Hkey.
  pose proof (py_index_middle l1 l2 x key Hkey) as Hidx.
  unfold __getitem__, __setitem__, __delitem__. simpl. rewrite Hvals, Hidx.
  split; [by rewrite list_lookup_middle|]. split.
  - do 2 f_equal. rewrite insert_app_r_alt by lia.
    by replace (length l1 - length l1) with 0 by lia.
  - do 2 f_equal. apply delete_middle.
Qed.

Lemma index_in_range_witness :
  __getitem__ (-1) sn_abc = Return "c" /\
  __setitem__ 2 (SStr "d") sn_abc = (Return (), mk "sn" true [] ["a"; "b"; "d"]) /\
  __delitem__ (-1) sn_abc = (Return (), mk "sn" true [] ["a"; "b"]).
Proof.
  destruct (index_in_range sn_abc ["a"; "b"] [] "c" (-1) (SStr "d") eq_refl
              (or_intror eq_refl)) as (Hg & _ & Hd).
  destruct (index_in_range sn_abc ["a"; "b"] [] "c" 2 (SStr "d") eq_refl
              (or_introl eq_refl)) as (_ & Hs & _).
  split; [exact Hg|]. split; [exact Hs|exact Hd].
Defined.

(** X5: a key outside the list raises [IndexError]. Assignment and deletion
    have set the full-replace flag before they raise: the values are as
    before, but the change list is from then on the full replacement and no
    longer the incremental list. *)
Theorem index_out_of_range (a : t) (key : Z) (v : scalar) :
  (key < - Z.of_nat (length (_values a)) \/ Z.of_nat (length (_values a)) <= key)%Z ->
  __getitem__ key a = Raise IndexError /\
  __setitem__ key v a = (Raise IndexError, mk (_name a) true (_added a) (_values a)) /\
  __delitem__ key a = (Raise IndexError, mk (_name a) true (_added a) (_values a)) /\
  get_change_list (__setitem__ key v a).2
    = get_change_list (mk (_name a) true [] (_values a)).
Proof.
  intros Hkey. pose proof (py_index_outside key _ Hkey) as Hidx.
  unfold __getitem__, __setitem__, __delitem__. simpl. by rewrite Hidx.
Qed.

Lemma index_out_of_range_witness :
  __getitem__ 1 cn_loaded = Raise IndexError /\
  __setitem__ 1 (SStr "b") cn_loaded = (Raise IndexError, mk "cn" true [] ["a"]) /\
  get_change_list (__setitem__ 1 (SStr "b") cn_loaded).2
    = ChangeList [(MOD_REPLACE, "cn", Some "a")].
Proof.
  assert (Hkey : (1 < - Z.of_nat (length (_values cn_loaded))
                  \/ Z.of_nat (length (_values cn_loaded)) <= 1)%Z).
  { right. simpl. lia. }
  destruct (index_out_of_range cn_loaded 1 (SStr "b") Hkey) as (Hg & Hs & _ & Hc).
  split; [exact Hg|]. split; [exact Hs|exact Hc].
Defined.

(** *** What a tracker keeps through every run of its methods *)

Lemma added_own_append name v a : added_own name a -> added_own name (append v a).
Proof.
  intros [Hn Ha]. unfold append. destruct (negb _); [|done].
  split; [done|]. simpl. intros i Hi. apply elem_of_app in Hi as [Hi|Hi].
  - by apply Ha.
  - apply list_elem_of_singleton in Hi. rewrite Hn in Hi. eauto.
Qed.

Lemma added_own_init name v add : added_own name (__init__ name v add).
Proof.
  assert (Hempty : added_own name (mk name false [] [])).
  { split; [done|]. simpl. intros i Hi. by apply elem_of_nil in Hi. }
  unfold __init__. destruct add, v as [sc|l]; simpl; try done.
  - by apply added_own_append.
  - revert Hempty. generalize (mk name false [] []).
    induction l as [|y l IH]; intros a Ha; simpl; [done|].
    apply IH. by apply added_own_append.
Qed.

Lemma added_own_step name a o : added_own name a -> added_own name (tracker_step a o).
Proof.
  intros Ha. destruct o as [v|v|key v|key|]; simpl.
  - by apply added_own_append.
  - destruct Ha as [Hn Ha]. by destruct v.
  - destruct Ha as [Hn Ha]. unfold __setitem__. simpl. by destruct (py_index _ _).
  - destruct Ha as [Hn Ha]. unfold __delitem__. simpl. by destruct (py_index _ _).
  - destruct Ha as [Hn Ha]. split; [done|]. simpl. intros i Hi.
    by apply elem_of_nil in Hi.
Qed.

Lemma tracked_step a o : tracked a -> tracked (tracker_step a o).
Proof.
  intros Ha. destruct o as [v|v|key v|key|]; simpl.
  - by apply tracked_append.
  - apply tracked_set_value.
  - apply tracked_setitem.
  - apply tracked_delitem.
  - apply tracked_discard.
Qed.

(** X6: from its construction on and through every run of [append],
    [set_value], assignment and deletion by index and [discard_change_list],
    a tracker keeps its name, every change it emits carries that name, and
    while its full-replace flag is clear every add instruction it has
    recorded is for a value it stores. *)
Theorem tracker_run_invariant (name : string) (v : value) (add : bool)
  (ops : list tracker_op) :
  _name (foldl tracker_step (__init__ name v add) ops) = name /\
  (forall n, n ∈ change_names
                 (get_change_list (foldl tracker_step (__init__ name v add) ops)) ->
             n = name) /\
  tracked (foldl tracker_step (__init__ name v add) ops).
Proof.
  assert (Hrun : forall a, added_own name a -> tracked a ->
            added_own name (foldl tracker_step a ops) /\
            tracked (foldl tracker_step a ops)).
  { induction ops as [|o ops IH]; intros a Hown Htr; simpl; [done|].
    apply IH; [by apply added_own_step|by apply tracked_step]. }
  destruct (Hrun _ (added_own_init name v add) (tracked_init name v add))
    as [[Hn Hown] Htr].
  split; [done|]. split; [|done].
  intros n. unfold get_change_list, change_names.
  destruct (_replace_all _).
  - destruct (Nat.eqb _ 0); simpl.
    + intros Hin. apply list_elem_of_singleton in Hin. by rewrite Hin, Hn.
    + rewrite fmap_app, <- !list_fmap_compose. simpl.
      intros Hin. apply elem_of_app in Hin as [Hin|Hin];
        apply list_elem_of_fmap in Hin as (y & -> & _); by rewrite Hn.
  - intros Hin. apply list_elem_of_fmap in Hin as (i & -> & Hi).
    by destruct (Hown i Hi) as [x ->].
Qed.

End TrackerMore.

(** ** The connection: construction, errors that are not retried *)

Section ConnectionMore.
Import LdapConnection.
Variable L : ldap_lib.

(** [_connect], by the answers of the library: the new session replaces
    the old one as soon as it exists, before the bind. *)
Lemma connect_eq (s : st) :
  _connect L s
  = match initialize L (log s) (_uri (conn s)) with
    | Return lo' =>
        (match simple_bind_s L (log s ++ [CInitialize (_uri (conn s))]) lo'
                 (_login (conn s)) (_password (conn s)) with
         | Return _ => Return ()
         | Raise e => Raise e
         | OutOfFuel => OutOfFuel
         end,
         mkst (set_lo lo' (conn s))
              (log s ++ [CInitialize (_uri (conn s));
                         CBind lo' (_login (conn s)) (_password (conn s))]))
    | Raise e => (Raise e, mkst (conn s) (log s ++ [CInitialize (_uri (conn s))]))
    | OutOfFuel => (OutOfFuel, mkst (conn s) (log s ++ [CInitialize (_uri (conn s))]))
    end.
Proof.
  unfold _connect, bind, get_conn, invoke, ret. simpl.
  destruct (initialize L (log s) _) as [lo'|e|]; simpl; try reflexivity.
  destruct (simple_bind_s L _ lo' _ _) as [b|e|]; simpl;
    by rewrite <- app_assoc.
Qed.

(** X7: [add], [modify] and [delete] retry on server-down only. When the
    library call returns, or raises anything else, that one call is all
    that is made: a result of the expected type returns, any other result
    type raises the wrong-result-type error, and an error of the library is
    passed on; the connection is as before. *)
Theorem primitive_single_call (p : primitive) (s : st) (lo : handle) :
  _lo (conn s) = Some lo ->
  primitive_answer L p (log s) lo <> Raise SERVER_DOWN ->
  run_primitive L p s
  = (checked (primitive_expects p) (primitive_answer L p (log s) lo),
     mkst (conn s) (log s ++ [primitive_call p lo])).
Proof.
  intros Hlo Hnot. rewrite run_primitive_body.
  apply retry_not_down; [by apply primitive_body|].
  destruct (primitive_answer L p (log s) lo) as [r|e|]; simpl;
    [by case_bool_decide| |done].
  intros [= ->]. done.
Qed.

(** X8: when the reconnect after a server-down fails, its error reaches
    the caller and the operation is not issued again. If the new session
    could not be made, the connection keeps the old one; if it was made and
    its bind failed, the connection keeps the new, unbound session. *)
Theorem reconnect_failure (p : primitive) (s : st) (lo : handle) :
  _lo (conn s) = Some lo ->
  primitive_answer L p (log s) lo = Raise SERVER_DOWN ->
  (forall e,
     initialize L (log s ++ [primitive_call p lo]) (_uri (conn s)) = Raise e ->
     run_primitive L p s
     = (Raise e,
        mkst (conn s) (log s ++ [primitive_call p lo; CInitialize (_uri (conn s))])))
  /\
  (forall lo' e,
     initialize L (log s ++ [primitive_call p lo]) (_uri (conn s)) = Return lo' ->
     simple_bind_s L (log s ++ [primitive_call p lo; CInitialize (_uri (conn s))])
                   lo' (_login (conn s)) (_password (conn s)) = Raise e ->
     run_primitive L p s
     = (Raise e,
        mkst (set_lo lo' (conn s))
             (log s ++ [primitive_call p lo; CInitialize (_uri (conn s));
                        CBind lo' (_login (conn s)) (_password (conn s))]))).
Proof.
  intros Hlo Hdown.
  pose proof (primitive_body L p s lo Hlo) as Hbody.
  rewrite Hdown in Hbody. simpl in Hbody.
  split.
  - intros e Hi. rewrite run_primitive_body. unfold _retry_on_disconnect, bind.
    rewrite Hbody, connect_eq. simpl. rewrite Hi. by rewrite <- app_assoc.
  - intros lo' e Hi Hb. rewrite run_primitive_body.
    unfold _retry_on_disconnect, bind.
    rewrite Hbody, connect_eq. simpl. rewrite Hi, <- !app_assoc. simpl.
    by rewrite Hb.
Qed.

(** X9: [authenticate] works on a session of its own and leaves the
    connection as it is, whatever happens. With the session made, invalid
    credentials give [False] and are not an error, and a bind that returns
    gives whether the result is of the bind type; the two calls on the new
    session are all that is made. *)
Theorem authenticate_own_session (dn password : string) (s : st) :
  conn (authenticate L dn password s).2 = conn s /\
  (forall lo,
     initialize L (log s) (_uri (conn s)) = Return lo ->
     simple_bind_s L (log s ++ [CInitialize (_uri (conn s))]) lo dn password
       = Raise INVALID_CREDENTIALS ->
     authenticate L dn password s
     = (Return false,
        mkst (conn s) (log s ++ [CInitialize (_uri (conn s)); CBind lo dn password])))
  /\
  (forall lo rt d,
     initialize L (log s) (_uri (conn s)) = Return lo ->
     simple_bind_s L (log s ++ [CInitialize (_uri (conn s))]) lo dn password
       = Return (rt, d) ->
     authenticate L dn password s
     = (Return (bool_decide (rt = RES_BIND)),
        mkst (conn s) (log s ++ [CInitialize (_uri (conn s)); CBind lo dn password]))).
Proof.
  unfold authenticate, bind, get_conn, invoke. simpl. split; [|split].
  - destruct (initialize L (log s) _) as [lo|e|]; simpl; try reflexivity.
    destruct (simple_bind_s L _ lo dn password) as [[rt d]|e|]; simpl;
      try reflexivity.
    destruct e; reflexivity.
  - intros lo Hi Hb. rewrite Hi. simpl. rewrite Hb. rewrite <- app_assoc.
    reflexivity.
  - intros lo rt d Hi Hb. rewrite Hi. simpl. rewrite Hb. rewrite <- app_assoc.
    reflexivity.
Qed.

(** X10: constructing a connection returns exactly when the session can be
    made and bound with the given login and password; the connection then
    holds that session, the four settings as given and a timeout of zero,
    and those two calls are all that was made. *)
Theorem connection_init (uri base login password : string) (h h' : list call)
  (c : LdapConnection.t) :
  LdapConnection.__init__ L uri base login password h = (Return c, h') <->
  exists lo b,
    initialize L h uri = Return lo /\
    simple_bind_s L (h ++ [CInitialize uri]) lo login password = Return b /\
    c = LdapConnection.mk (Some lo) uri base login password 0 /\
    h' = h ++ [CInitialize uri; CBind lo login password].
Proof.
  unfold LdapConnection.__init__. rewrite connect_eq. simpl. split.
  - destruct (initialize L h uri) as [lo|e|] eqn:Hi;
      try (intros Hinit; discriminate Hinit).
    destruct (simple_bind_s L (h ++ [CInitialize uri]) lo login password)
      as [b|e|] eqn:Hb; try (intros Hinit; discriminate Hinit).
    intros Hinit. simpl in Hinit. injection Hinit as <- <-.
    exists lo, b. by rewrite Hb.
  - intros (lo & b & Hi & Hb & -> & ->). by rewrite Hi, Hb.
Qed.

(** *** Settings and session through every method *)

Lemma keeps_refl c : keeps c c.
Proof. unfold keeps. by split_and!. Qed.

Lemma keeps_trans c1 c2 c3 : keeps c1 c2 -> keeps c2 c3 -> keeps c1 c3.
Proof.
  intros (H1 & H2 & H3 & H4 & H5 & H6) (K1 & K2 & K3 & K4 & K5 & K6).
  unfold keeps. split_and!; [congruence..|]. intros Hs. by apply K6, H6.
Qed.

Lemma keeps_connect (s : st) : keeps (conn s) (conn (_connect L s).2).
Proof.
  rewrite connect_eq.
  destruct (initialize L (log s) _) as [lo'|e|]; simpl; try apply keeps_refl.
  unfold keeps. simpl. split_and!; try reflexivity. intros _. by eexists.
Qed.

(** The undecorated bodies and the loop of the search never touch the
    connection object. *)
Lemma body_conn (p : primitive) (s : st) :
  conn (match p with
        | PAdd dn attrs => add_body L dn attrs
        | PModify dn change => modify_body L dn change
        | PDelete dn => delete_body L dn
        end s).2 = conn s.
Proof.
  destruct p; unfold add_body, modify_body, delete_body, bind, the_lo, invoke,
    raise, ret;
    (destruct (_lo (conn s)); simpl; [|reflexivity]);
    match goal with
    | |- context [match ?o with Return _ => _ | Raise _ => _ | OutOfFuel => _ end] =>
        destruct o as [r|e|]
    end; simpl; try case_bool_decide; reflexivity.
Qed.

Lemma query_loop_conn (fuel : nat) (rid : msgid) (s : st) :
  conn (query_loop L fuel rid s).2 = conn s.
Proof.
  revert s. induction fuel as [|fuel IH]; intros s; simpl; [reflexivity|].
  unfold bind, get_conn, the_lo, invoke, ret.
  destruct (_lo (conn s)) as [lo|]; simpl; [|reflexivity].
  destruct (result L (log s) lo rid _) as [[rt d]|e|]; simpl; try reflexivity.
  destruct d as [|x d]; simpl; [reflexivity|].
  case_bool_decide; simpl; [reflexivity|].
  by rewrite IH.
Qed.

Lemma query_next_conn (fuel : nat) (g : query_gen) (s : st) :
  conn (query_next L fuel g s).2 = conn s.
Proof.
  destruct g as [a|rid|]; simpl; [| |reflexivity].
  - unfold query_enter, bind, get_conn, the_lo, invoke, ret.
    destruct (_lo (conn s)) as [lo|]; simpl; [|reflexivity].
    destruct (search L (log s) lo _ _ _ _) as [rid|e|]; simpl; try reflexivity.
    pose proof (query_loop_conn fuel rid
                  (mkst (conn s)
                     (log s ++ [CSearch lo (default (_base (conn s)) (q_base a))
                                  (q_scope a) (q_filter a)
                                  (q_retrieve_attributes a)]))) as Hc.
    destruct (query_loop L fuel rid _) as [[[x|]|e|] s1]; simpl in *; exact Hc.
  - pose proof (query_loop_conn fuel rid s) as Hc.
    destruct (query_loop L fuel rid s) as [[[x|]|e|] s1]; simpl in *; exact Hc.
Qed.

Lemma yield_next_state {G X} (t : outcome X * G * st) :
  (yield_next t).2 = t.2.
Proof. by destruct t as [[[x|e|] g] s]. Qed.

Lemma keeps_query (fuel : nat) (a : query_args) (r : retry_gen query_gen) (s : st) :
  keeps (conn s) (conn (query L fuel a r s).2).
Proof.
  unfold query, _retry_on_disconnect_gen.
  assert (Hnext : forall g t, keeps (conn t)
                    (conn (yield_next (query_next L fuel g t)).2)).
  { intros g t. rewrite yield_next_state, query_next_conn. apply keeps_refl. }
  destruct r as [|gen|]; [|apply Hnext|apply keeps_refl].
  pose proof (query_next_conn fuel (QNew a) s) as Hc.
  pose proof (Hnext (QNew a) s) as Hn.
  destruct (query_next L fuel (QNew a) s) as [[[x|e|] g] s1]; try exact Hn.
  destruct e; try exact Hn. simpl in Hc.
  pose proof (keeps_connect s1) as Hk. rewrite Hc in Hk.
  destruct (_connect L s1) as [[u|e|] s2]; [|exact Hk..].
  eapply keeps_trans; [exact Hk|]. exact (Hnext (QNew a) s2).
Qed.

Lemma keeps_list (fuel fuel' : nat) (a : query_args) (r : retry_gen query_gen)
  (acc : list entry) (s : st) :
  keeps (conn s) (conn (list_ fuel (query L fuel' a) r acc s).2).
Proof.
  revert r acc s. induction fuel as [|fuel IH]; intros r acc s; simpl;
    [apply keeps_refl|].
  pose proof (keeps_query fuel' a r s) as Hk.
  destruct (query L fuel' a r s) as [[[x|e|] r'] s1]; simpl in *; try exact Hk.
  - eapply keeps_trans; [exact Hk|apply IH].
  - by destruct e.
Qed.

Lemma keeps_retry {A} (func : M st A) :
  (forall t, conn (func t).2 = conn t) ->
  forall s, keeps (conn s) (conn (_retry_on_disconnect L func s).2).
Proof.
  intros Hf s. unfold _retry_on_disconnect, bind.
  pose proof (Hf s) as Hc.
  destruct (func s) as [[u|e|] s1]; simpl in Hc;
    [rewrite <- Hc; apply keeps_refl| |rewrite <- Hc; apply keeps_refl].
  assert (Hsame : keeps (conn s) (conn (@Raise A e, s1).2)).
  { simpl. rewrite Hc. apply keeps_refl. }
  destruct e; try exact Hsame.
  pose proof (keeps_connect s1) as Hk. rewrite Hc in Hk.
  destruct (_connect L s1) as [[u|e|] s2]; [|exact Hk..].
  eapply keeps_trans; [exact Hk|]. simpl. rewrite Hf. apply keeps_refl.
Qed.

(** X11: every method of the connection leaves the URI, the base, the
    login, the password and the timeout as they were given, and a
    connection that holds a session holds one afterwards: a reconnect
    replaces the session and nothing else. *)
Theorem connection_keeps_settings (s : st) :
  keeps (conn s) (conn (_connect L s).2) /\
  (forall p, keeps (conn s) (conn (run_primitive L p s).2)) /\
  (forall dn password, keeps (conn s) (conn (authenticate L dn password s).2)) /\
  (forall fuel a r, keeps (conn s) (conn (query L fuel a r s).2)) /\
  (forall fuel dn, keeps (conn s) (conn (check_if_dn_exists L fuel dn s).2)).
Proof.
  split; [apply keeps_connect|]. split; [|split; [|split]].
  - intros p. rewrite run_primitive_body. apply keeps_retry.
    intros t. apply body_conn.
  - intros dn password. unfold authenticate, bind, get_conn, invoke. simpl.
    destruct (initialize L (log s) _) as [lo|e|]; simpl; try apply keeps_refl.
    destruct (simple_bind_s L _ lo dn password) as [[rt d]|e|]; simpl;
      try apply keeps_refl.
    destruct e; apply keeps_refl.
  - intros fuel a r. apply keeps_query.
  - intros fuel dn. unfold check_if_dn_exists.
    pose proof (keeps_list fuel fuel
                  (Build_query_args "(objectClass=*)" None (Some dn) SCOPE_BASE)
                  RNew [] s) as Hk.
    destruct (list_ fuel _ RNew [] s) as [[res|e|] s1]; simpl in *; try exact Hk.
    by destruct e.
Qed.

(** *** The search as a generator *)

(** X12: a search that has raised, be it the end of the results or an
    error, is finished: every later [next] raises [StopIteration] and calls
    nothing. *)
Theorem search_finished_stays_finished (fuel : nat) (a : query_args)
  (r r' : retry_gen query_gen) (s s' : st) (o : outcome entry) :
  query L fuel a r s = (o, r', s') ->
  (forall x, o <> Return x) ->
  r' = RDone /\
  forall fuel2 s2, query L fuel2 a r' s2 = (Raise StopIteration, RDone, s2).
Proof.
  intros Hq Hno.
  assert (Hdone : r' = RDone).
  { unfold query, _retry_on_disconnect_gen in Hq.
    assert (Hy : forall t : outcome entry * query_gen * st,
               yield_next t = (o, r', s') -> r' = RDone).
    { intros [[[y|e|] g] t]; simpl; intros [= <- <- _]; [|done..].
      by destruct (Hno y). }
    destruct r as [|gen|]; [|exact (Hy _ Hq)|by inversion Hq].
    destruct (query_next L fuel (QNew a) s) as [[[y|e|] g] t] eqn:Hn;
      [exact (Hy _ Hq)| |exact (Hy _ Hq)].
    destruct e; try exact (Hy _ Hq).
    destruct (_connect L t) as [[u|e|] t']; [exact (Hy _ Hq)|by inversion Hq..]. }
  split; [done|]. by subst r'.
Qed.

(** X13: [check_if_dn_exists] never raises no-such-object. On a bound
    connection it makes a base search under the given name; when the search
    call raises no-such-object, and likewise when the search has no result,
    it returns [False]; when the search gives one entry and ends, it returns
    [True]. *)
Theorem check_if_dn_exists_cases (dn : string) (s : st) (lo : handle) :
  _lo (conn s) = Some lo ->
  (forall fuel s', check_if_dn_exists L fuel dn s <> (Raise NO_SUCH_OBJECT, s')) /\
  (forall fuel,
     search L (log s) lo dn SCOPE_BASE "(objectClass=*)" None
       = Raise NO_SUCH_OBJECT ->
     check_if_dn_exists L (S fuel) dn s
     = (Return false,
        mkst (conn s) (log s ++ [CSearch lo dn SCOPE_BASE "(objectClass=*)" None])))
  /\
  (forall fuel rid rt,
     search L (log s) lo dn SCOPE_BASE "(objectClass=*)" None = Return rid ->
     result L (log s ++ [CSearch lo dn SCOPE_BASE "(objectClass=*)" None])
            lo rid (_timeout (conn s)) = Return (rt, []) ->
     check_if_dn_exists L (S fuel) dn s
     = (Return false,
        mkst (conn s)
          (log s ++ [CSearch lo dn SCOPE_BASE "(objectClass=*)" None;
                     CResult lo rid (_timeout (conn s))])))
  /\
  (forall fuel rid x d rt,
     search L (log s) lo dn SCOPE_BASE "(objectClass=*)" None = Return rid ->
     result L (log s ++ [CSearch lo dn SCOPE_BASE "(objectClass=*)" None])
            lo rid (_timeout (conn s)) = Return (RES_SEARCH_ENTRY, x :: d) ->
     result L (log s ++ [CSearch lo dn SCOPE_BASE "(objectClass=*)" None;
                         CResult lo rid (_timeout (conn s))])
            lo rid (_timeout (conn s)) = Return (rt, []) ->
     check_if_dn_exists L (S (S fuel)) dn s
     = (Return true,
        mkst (conn s)
          (log s ++ [CSearch lo dn SCOPE_BASE "(objectClass=*)" None;
                     CResult lo rid (_timeout (conn s));
                     CResult lo rid (_timeout (conn s))]))).
Proof.
  intros Hlo. split; [|split; [|split]].
  - intros fuel s'. unfold check_if_dn_exists.
    destruct (list_ fuel _ RNew [] s) as [[res|e|] s1]; try discriminate.
    destruct e; discriminate.
  - intros fuel Hs.
    unfold check_if_dn_exists, list_, query, _retry_on_disconnect_gen,
      query_next, query_enter, bind, get_conn, the_lo, invoke.
    rewrite Hlo. simpl. by rewrite Hs.
  - intros fuel rid rt Hs Hr.
    unfold check_if_dn_exists, list_, query, _retry_on_disconnect_gen,
      query_next, query_enter, bind, get_conn, the_lo, invoke.
    rewrite Hlo. simpl. rewrite Hs. simpl.
    unfold bind, get_conn, the_lo, invoke. simpl. rewrite Hlo. simpl.
    rewrite Hr. simpl. by rewrite <- app_assoc.
  - intros fuel rid x d rt Hs Hr1 Hr2.
    unfold check_if_dn_exists, list_, query, _retry_on_disconnect_gen,
      query_next, query_enter, bind, get_conn, the_lo, invoke.
    rewrite Hlo. simpl. rewrite Hs. simpl.
    unfold bind, get_conn, the_lo, invoke. simpl. rewrite Hlo. simpl.
    rewrite Hr1. simpl.
    unfold bind, get_conn, the_lo, invoke. simpl. rewrite Hlo. simpl.
    rewrite <- app_assoc. simpl. rewrite Hr2. simpl. by rewrite <- app_assoc.
Qed.

End ConnectionMore.

Section ConnectionMoreExamples.
Import LdapConnection.

Lemma primitive_single_call_witness :
  run_primitive (scripted [Data RES_OTHER []]) (PAdd jack_dn []) st0
  = (Raise (LDAPError "Wrong result type"), mkst conn0 [CAdd 0 jack_dn []]).
Proof.
  assert (Hnot : primitive_answer (scripted [Data RES_OTHER []]) (PAdd jack_dn [])
                   (log st0) 0 <> Raise SERVER_DOWN).
  { intros H. discriminate H. }
  exact (primitive_single_call (scripted [Data RES_OTHER []]) (PAdd jack_dn [])
           st0 0 eq_refl Hnot).
Defined.

Lemma reconnect_failure_witness :
  run_primitive (scripted [Fail SERVER_DOWN; Fail SERVER_DOWN]) (PDelete jack_dn) st0
  = (Raise SERVER_DOWN,
     mkst conn0 [CDelete 0 jack_dn; CInitialize "ldap://localhost"]) /\
  run_primitive (scripted [Fail SERVER_DOWN; Ok; Fail INVALID_CREDENTIALS])
    (PDelete jack_dn) st0
  = (Raise INVALID_CREDENTIALS,
     mkst (set_lo 2 conn0)
       [CDelete 0 jack_dn; CInitialize "ldap://localhost";
        CBind 2 "cn=admin,dc=example,dc=com" "admin"]).
Proof.
  split.
  - exact (proj1 (reconnect_failure (scripted [Fail SERVER_DOWN; Fail SERVER_DOWN])
             (PDelete jack_dn) st0 0 eq_refl eq_refl) SERVER_DOWN eq_refl).
  - exact (proj2 (reconnect_failure
             (scripted [Fail SERVER_DOWN; Ok; Fail INVALID_CREDENTIALS])
             (PDelete jack_dn) st0 0 eq_refl eq_refl) 2 INVALID_CREDENTIALS
             eq_refl eq_refl).
Defined.

Lemma connection_init_witness :
  LdapConnection.__init__ (scripted []) "ldap://localhost" "dc=example,dc=com"
    "cn=admin,dc=example,dc=com" "admin" []
  = (Return (LdapConnection.mk (Some 1) "ldap://localhost" "dc=example,dc=com"
               "cn=admin,dc=example,dc=com" "admin" 0),
     [CInitialize "ldap://localhost"; CBind 1 "cn=admin,dc=example,dc=com" "admin"]).
Proof.
  apply (proj2 (connection_init (scripted []) "ldap://localhost" "dc=example,dc=com"
                  "cn=admin,dc=example,dc=com" "admin" [] _ _)).
  exists 1, (RES_BIND, []). repeat split.
Defined.

Lemma search_finished_stays_finished_witness :
  query (scripted drop_after_first) 3 search_all (RRunning (QLoop 1)) after_first
    = (Raise SERVER_DOWN, RDone, after_second) /\
  query (scripted drop_after_first) 3 search_all RDone after_second
    = (Raise StopIteration, RDone, after_second).
Proof.
  assert (Hno : forall x : entry, Raise SERVER_DOWN <> Return x).
  { intros x H. discriminate H. }
  split; [reflexivity|].
  exact (proj2 (search_finished_stays_finished (scripted drop_after_first) 3
                  search_all (RRunning (QLoop 1)) RDone after_first after_second
                  (Raise SERVER_DOWN) eq_refl Hno) 3 after_second).
Defined.

Lemma check_if_dn_exists_cases_witness :
  check_if_dn_exists (scripted [Fail NO_SUCH_OBJECT]) 1 jack_dn st0
  = (Return false, mkst conn0 [CSearch 0 jack_dn SCOPE_BASE "(objectClass=*)" None]) /\
  check_if_dn_exists (scripted [Ok; Data RES_SEARCH_ENTRY [jack_entry]]) 2 jack_dn st0
  = (Return true,
     mkst conn0 [CSearch 0 jack_dn SCOPE_BASE "(objectClass=*)" None;
                 CResult 0 1 0; CResult 0 1 0]).
Proof.
  split.
  - exact (proj1 (proj2 (check_if_dn_exists_cases (scripted [Fail NO_SUCH_OBJECT])
             jack_dn st0 0 eq_refl)) 0 eq_refl).
  - exact (proj2 (proj2 (proj2 (check_if_dn_exists_cases
             (scripted [Ok; Data RES_SEARCH_ENTRY [jack_entry]])
             jack_dn st0 0 eq_refl))) 0 1 jack_entry [] RES_SEARCH_RESULT
             eq_refl eq_refl eq_refl).
Defined.

Lemma authenticate_own_session_witness :
  authenticate (scripted [Ok; Fail INVALID_CREDENTIALS]) jack_dn "wrong" st0
  = (Return false,
     mkst conn0 [CInitialize "ldap://localhost"; CBind 1 jack_dn "wrong"]) /\
  authenticate (scripted []) jack_dn "secret" st0
  = (Return true,
     mkst conn0 [CInitialize "ldap://localhost"; CBind 1 jack_dn "secret"]).
Proof.
  split.
  - exact (proj1 (proj2 (authenticate_own_session
             (scripted [Ok; Fail INVALID_CREDENTIALS]) jack_dn "wrong" st0))
             1 eq_refl eq_refl).
  - exact (proj2 (proj2 (authenticate_own_session (scripted []) jack_dn "secret" st0))
             1 RES_BIND [] eq_refl eq_refl).
Defined.

End ConnectionMoreExamples.

(** ** The entry: lazy fetch, attribute access, write-back *)

Section NodeMore.
Import LdapConnection LdapNode.
Variable L : ldap_lib.
Variable object__setattr__ : string -> value -> LdapNode.t -> LdapNode.t.

(** On a fetched entry the fetch block returns the mapping and does nothing
    else. *)
Lemma fetched_attr_loaded (fuel : nat) (n : LdapNode.t) (s : st)
  (attr : gmap string LdapAttribute.t) :
  _attr n = Some attr -> fetched_attr L fuel (n, s) = (Return attr, (n, s)).
Proof.
  intros Hattr. unfold fetched_attr, bind, get_self, ret. simpl. by rewrite Hattr.
Qed.

(** X14: a fetched entry is not fetched again: reading, writing and
    deleting an attribute call nothing on the library and leave the
    connection alone; a read changes nothing at all, and after a write or a
    delete the entry is still fetched. *)
Theorem fetched_entry_access_is_local (n : LdapNode.t) (s : st)
  (attr : gmap string LdapAttribute.t) :
  _attr n = Some attr ->
  (forall fuel name, (__getattr__ L fuel name (n, s)).2 = (n, s)) /\
  (forall fuel name v,
     String.prefix "_" name = false ->
     (__setattr__ L object__setattr__ fuel name v (n, s)).2.2 = s /\
     is_Some (_attr (__setattr__ L object__setattr__ fuel name v (n, s)).2.1)) /\
  (forall fuel name,
     (__delattr__ L fuel name (n, s)).2.2 = s /\
     is_Some (_attr (__delattr__ L fuel name (n, s)).2.1)).
Proof.
  intros Hattr. split; [|split].
  - intros fuel name. unfold __getattr__, bind.
    rewrite (fetched_attr_loaded fuel n s attr Hattr).
    destruct (String.prefix "is_" name).
    + by destruct (attr !! "objectClass").
    + by destruct (attr !! name).
  - intros fuel name v Hpriv. unfold __setattr__, bind. rewrite Hpriv.
    rewrite (fetched_attr_loaded fuel n s attr Hattr).
    destruct (attr !! name); simpl; split; by eauto.
  - intros fuel name. unfold __delattr__, bind.
    rewrite (fetched_attr_loaded fuel n s attr Hattr).
    destruct (attr !! name); simpl; (split; [done|]); [by eauto|].
    rewrite Hattr. by eauto.
Qed.

(** X15: on a fetched entry, a name the mapping does not hold cannot be
    deleted: the delete raises [KeyError] with the name, whatever the name
    looks like. Reading such a name raises [AttributeError], unless the name
    starts with [is_], which is never looked up in the mapping. Neither
    changes the entry, and the name is not put on the pending-deletion
    list. *)
Theorem missing_attribute_errors (fuel : nat) (n : LdapNode.t) (s : st)
  (attr : gmap string LdapAttribute.t) (name : string) :
  _attr n = Some attr -> attr !! name = None ->
  __delattr__ L fuel name (n, s) = (Raise (KeyError name), (n, s)) /\
  (String.prefix "is_" name = false ->
   __getattr__ L fuel name (n, s) = (Raise AttributeError, (n, s))) /\
  (String.prefix "is_" name = true ->
   __getattr__ L fuel name (n, s)
   = (match attr !! "objectClass" with
      | Some oc => Return (GotBool (LdapAttribute.__contains__ (from3 name) oc))
      | None => Raise (KeyError "objectClass")
      end, (n, s))).
Proof.
  intros Hattr Hname. unfold __getattr__, __delattr__, bind.
  rewrite (fetched_attr_loaded fuel n s attr Hattr), Hname.
  split; [done|]. split; intros His; rewrite His; [done|].
  by destruct (attr !! "objectClass").
Qed.

(** *** The [is_] accessor *)

Lemma substring_all (c : string) : String.substring 0 (String.length c) c = c.
Proof. induction c as [|ch c IH]; simpl; [done|]. by rewrite IH. Qed.

Lemma is_prefixed (cls : string) : String.prefix "is_" ("is_" +:+ cls) = true.
Proof.
  cbv [String.append]. simpl. by destruct cls.
Qed.

Lemma from3_is (cls : string) : from3 ("is_" +:+ cls) = cls.
Proof.
  unfold from3. cbv [String.append]. simpl. rewrite Nat.sub_0_r. apply substring_all.
Qed.

(** X16: a name of the form [is_<class>] is never looked up in the mapping.
    On a fetched entry it answers whether [<class>] is one of the values of
    [objectClass], and raises [KeyError] when the entry has no
    [objectClass]; an attribute that itself is called [is_...] cannot be
    read. *)
Theorem is_class_accessor (fuel : nat) (n : LdapNode.t) (s : st)
  (attr : gmap string LdapAttribute.t) (cls : string) :
  _attr n = Some attr ->
  __getattr__ L fuel ("is_" +:+ cls) (n, s)
  = (match attr !! "objectClass" with
     | Some oc => Return (GotBool (bool_decide (cls ∈ LdapAttribute._values oc)))
     | None => Raise (KeyError "objectClass")
     end, (n, s)).
Proof.
  intros Hattr. unfold __getattr__, bind.
  rewrite (fetched_attr_loaded fuel n s attr Hattr).
  rewrite is_prefixed.
  destruct (attr !! "objectClass") as [oc|]; [|done].
  unfold LdapAttribute.__contains__. by rewrite from3_is.
Qed.

(** *** The change list of a whole mapping *)

Lemma clean_no_change (a : LdapAttribute.t) :
  clean a -> iter_change (LdapAttribute.get_change_list a) = [].
Proof.
  intros [Hflag Hadded]. unfold LdapAttribute.get_change_list.
  by rewrite Hflag, Hadded.
Qed.

Lemma concat_all_nil {A B} (g : A -> list B) (l : list A) :
  (forall x, x ∈ l -> g x = []) -> concat (g <$> l) = [].
Proof.
  induction l as [|x l IH]; intros Hall; simpl; [done|].
  rewrite (Hall x) by apply list_elem_of_here. apply IH.
  intros y Hy. apply Hall. by apply list_elem_of_further.
Qed.

Lemma values_elem {A} (m : gmap string A) (a : A) :
  a ∈ values m -> exists k, m !! k = Some a.
Proof.
  unfold values. intros Hin. apply list_elem_of_fmap in Hin as ([k b] & -> & Hin).
  apply elem_of_map_to_list in Hin. eauto.
Qed.

(** A mapping of clean trackers contributes nothing: the list for [modify]
    is the pending deletions. *)
Lemma modify_list_clean (to_delete : list string)
  (attr : gmap string LdapAttribute.t) :
  (forall k a, attr !! k = Some a -> clean a) ->
  modify_list to_delete attr = (fun x => EMod (MOD_DELETE, x, None)) <$> to_delete.
Proof.
  intros Hclean. rewrite modify_list_concat, concat_all_nil; [by rewrite app_nil_r|].
  intros a Ha. apply values_elem in Ha as [k Hk]. apply clean_no_change. eauto.
Qed.


(** *** One change, one instruction *)


(** *** [save] and what it leaves *)

Lemma discarded_clean (attr : gmap string LdapAttribute.t) (k : string)
  (a : LdapAttribute.t) :
  (LdapAttribute.discard_change_list <$> attr) !! k = Some a -> clean a.
Proof.
  rewrite lookup_fmap. destruct (attr !! k) as [b|]; [|done].
  by intros [= <-].
Qed.

(** X18: a [save] that has returned leaves nothing to write back: a second
    [save], on any state of the connection, returns at once without a
    library call and changes nothing. *)
Theorem save_twice (n n' : LdapNode.t) (s s' : st) :
  save L (n, s) = (Return (), (n', s')) ->
  forall s2, save L (n', s2) = (Return (), (n', s2)).
Proof.
  intros Hsave s2.
  assert (Hdone : forall attr,
            save L (LdapNode.mk (_dn n) (_valid n) [] false
                      (Some (LdapAttribute.discard_change_list <$> attr)), s2)
            = (Return (),
               (LdapNode.mk (_dn n) (_valid n) [] false
                  (Some (LdapAttribute.discard_change_list <$> attr)), s2))).
  { intros attr.
    rewrite (save_old_eq L
               (LdapNode.mk (_dn n) (_valid n) [] false
                  (Some (LdapAttribute.discard_change_list <$> attr)))
               s2 (LdapAttribute.discard_change_list <$> attr) eq_refl eq_refl).
    simpl. by rewrite (modify_list_clean [] _ (discarded_clean attr)). }
  destruct (_attr n) as [attr|] eqn:Hattr.
  - destruct (_new n) eqn:Hnew.
    + rewrite (save_new_eq L n s attr Hnew Hattr) in Hsave.
      destruct (add L (_dn n) (add_list attr) s) as [[u|e|] s1];
        inversion Hsave; subst. apply Hdone.
    + rewrite (save_old_eq L n s attr Hnew Hattr) in Hsave.
      destruct (Nat.eqb (length (modify_list (_to_delete n) attr)) 0) eqn:Hlen.
      * inversion Hsave; subst.
        rewrite (save_old_eq L n' s2 attr Hnew Hattr). by rewrite Hlen.
      * destruct (modify L (_dn n) _ s) as [[u|e|] s1];
          inversion Hsave; subst. apply Hdone.
  - unfold save, bind, get_self in Hsave. simpl in Hsave. rewrite Hattr in Hsave.
    by destruct (_new n).
Qed.

(** X19: whatever comes of it, [save] changes neither the distinguished
    name, nor the validity flag, nor which attributes the mapping holds, nor
    the name and the values of any tracker. *)
Theorem save_keeps_values (n n' : LdapNode.t) (s s' : st) (o : outcome unit) :
  save L (n, s) = (o, (n', s')) ->
  _dn n' = _dn n /\ _valid n' = _valid n /\ stored n' = stored n.
Proof.
  intros Hsave.
  assert (Hsaved : forall attr,
            _attr n = Some attr ->
            stored (LdapNode.mk (_dn n) (_valid n) [] false
                      (Some (LdapAttribute.discard_change_list <$> attr)))
            = stored n).
  { intros attr Hattr. unfold stored. rewrite Hattr. simpl. f_equal.
    by rewrite <- map_fmap_compose. }
  destruct (_attr n) as [attr|] eqn:Hattr.
  - destruct (_new n) eqn:Hnew.
    + rewrite (save_new_eq L n s attr Hnew Hattr) in Hsave.
      destruct (add L (_dn n) (add_list attr) s) as [[u|e|] s1];
        inversion Hsave; subst; try done.
      by rewrite (Hsaved attr eq_refl).
    + rewrite (save_old_eq L n s attr Hnew Hattr) in Hsave.
      destruct (Nat.eqb (length (modify_list (_to_delete n) attr)) 0).
      * by inversion Hsave; subst.
      * destruct (modify L (_dn n) _ s) as [[u|e|] s1];
          inversion Hsave; subst; try done.
        by rewrite (Hsaved attr eq_refl).
  - unfold save, bind, get_self in Hsave. simpl in Hsave. rewrite Hattr in Hsave.
    by destruct (_new n); inversion Hsave; subst.
Qed.

(** *** The lazy fetch *)

(** X20: the fetch of an entry not yet fetched is a base search under its
    name. Of the results the first is taken: every attribute of it gets a
    tracker under its own name holding the values as given, with nothing to
    write back. A search without result raises [IndexError], an error of
    the search is passed on, and in both cases the entry stays unfetched. *)
Theorem fetch_builds_clean_trackers (fuel : nat) (n : LdapNode.t) (s : st) :
  _attr n = None ->
  (forall x rest s1,
     list_ fuel (query L fuel (Build_query_args "(objectClass=*)" None
                                 (Some (_dn n)) SCOPE_BASE)) RNew [] s
       = (Return (x :: rest), s1) ->
     exists attr,
       fetched_attr L fuel (n, s)
         = (Return attr,
            (LdapNode.mk (_dn n) (_valid n) (_to_delete n) (_new n) (Some attr), s1)) /\
       (forall name,
          attr !! name = (fun vs => LdapAttribute.mk name false [] vs) <$> (x.2 !! name)) /\
       (forall name a, attr !! name = Some a -> clean a))
  /\
  (forall s1 name,
     list_ fuel (query L fuel (Build_query_args "(objectClass=*)" None
                                 (Some (_dn n)) SCOPE_BASE)) RNew [] s
       = (Return [], s1) ->
     __getattr__ L fuel name (n, s) = (Raise IndexError, (n, s1)))
  /\
  (forall e s1 name,
     list_ fuel (query L fuel (Build_query_args "(objectClass=*)" None
                                 (Some (_dn n)) SCOPE_BASE)) RNew [] s
       = (Raise e, s1) ->
     __getattr__ L fuel name (n, s) = (Raise e, (n, s1))).
Proof.
  intros Hattr. split; [|split].
  - intros x rest s1 Hlist. eexists. split; [|split].
    + unfold fetched_attr, bind, get_self, on_conn. simpl.
      rewrite Hattr. simpl. rewrite Hlist. reflexivity.
    + intros name. rewrite map_lookup_imap. by destruct (x.2 !! name).
    + intros name a. rewrite map_lookup_imap.
      destruct (x.2 !! name); simpl; [|done]. by intros [= <-].
  - intros s1 name Hlist.
    unfold __getattr__, fetched_attr, bind, get_self, on_conn. simpl.
    rewrite Hattr. simpl. by rewrite Hlist.
  - intros e s1 name Hlist.
    unfold __getattr__, fetched_attr, bind, get_self, on_conn. simpl.
    rewrite Hattr. simpl. by rewrite Hlist.
Qed.

(** *** Deleting the entry, setting the password *)

(** X21: [delete()] makes the connection's [delete] under the entry's name
    and nothing else. When that returns, the validity flag is cleared and
    the mapping and the pending changes stay as they are; when it fails, the
    entry is as before and still valid. *)
Theorem delete_outcome (n n' : LdapNode.t) (s s' : st) (o : outcome unit) :
  LdapNode.delete L (n, s) = (o, (n', s')) ->
  s' = (LdapConnection.delete L (_dn n) s).2 /\
  ((o = Return () /\
    n' = LdapNode.mk (_dn n) false (_to_delete n) (_new n) (_attr n)) \/
   (o <> Return () /\ n' = n)).
Proof.
  unfold LdapNode.delete, bind, get_self, on_conn, set_self. simpl.
  destruct (LdapConnection.delete L (_dn n) s) as [[[]|e|] s1]; simpl;
    intros [= <- <- <-]; (split; [done|]); [by left|by right..].
Qed.

(** X22: [set_password] on a fetched entry stores the password as given,
    as the one value of [userPassword], in place of whatever the attribute
    held; the other attributes are untouched and nothing is called. *)
Theorem set_password_plaintext (fuel : nat) (n : LdapNode.t) (s : st)
  (attr : gmap string LdapAttribute.t) (password : string) :
  _attr n = Some attr ->
  exists a,
    set_password L object__setattr__ fuel password (n, s)
    = (Return (),
       (LdapNode.mk (_dn n) (_valid n) (_to_delete n) (_new n)
          (Some (<[ "userPassword" := a ]> attr)), s)) /\
    LdapAttribute._values a = [password] /\
    LdapAttribute._name a
    = match attr !! "userPassword" with
      | Some a0 => LdapAttribute._name a0
      | None => "userPassword"
      end.
Proof.
  intros Hattr. unfold set_password, __setattr__, bind.
  change (String.prefix "_" "userPassword") with false. cbv beta iota.
  rewrite (fetched_attr_loaded fuel n s attr Hattr).
  destruct (attr !! "userPassword") as [a0|]; eexists; split; try reflexivity;
    by split.
Qed.

End NodeMore.

Section NodeMoreExamples.
Import LdapConnection LdapNode.

Lemma fetched_entry_access_is_local_witness :
  (__getattr__ (scripted []) 0 "loginShell" (jack_node, st0)).2 = (jack_node, st0) /\
  (__setattr__ (scripted []) no_private 0 "sn" (Scalar (SStr "Jack"))
     (jack_node, st0)).2.2 = st0 /\
  (__delattr__ (scripted []) 0 "loginShell" (jack_node, st0)).2.2 = st0.
Proof.
  destruct (fetched_entry_access_is_local (scripted []) no_private jack_node st0 _
              eq_refl) as (Hr & Hw & Hd).
  split; [exact (Hr 0 "loginShell")|].
  split; [exact (proj1 (Hw 0 "sn" (Scalar (SStr "Jack")) eq_refl))|].
  exact (proj1 (Hd 0 "loginShell")).
Defined.

Lemma missing_attribute_errors_witness :
  __delattr__ (scripted []) 0 "mail" (jack_node, st0)
    = (Raise (KeyError "mail"), (jack_node, st0)) /\
  __getattr__ (scripted []) 0 "mail" (jack_node, st0)
    = (Raise AttributeError, (jack_node, st0)) /\
  __delattr__ (scripted []) 0 "is_monkey" (daniel_node, st0)
    = (Raise (KeyError "is_monkey"), (daniel_node, st0)) /\
  __getattr__ (scripted []) 0 "is_monkey" (daniel_node, st0)
    = (Return (GotBool false), (daniel_node, st0)).
Proof.
  destruct (missing_attribute_errors (scripted []) 0 jack_node st0 _ "mail"
              eq_refl eq_refl) as (Hd & Hr & _).
  destruct (missing_attribute_errors (scripted []) 0 daniel_node st0 _ "is_monkey"
              eq_refl eq_refl) as (Hd' & _ & Hr').
  split; [exact Hd|]. split; [exact (Hr eq_refl)|].
  split; [exact Hd'|exact (Hr' eq_refl)].
Defined.

Lemma is_class_accessor_witness :
  __getattr__ (scripted []) 0 "is_person" (daniel_node, st0)
    = (Return (GotBool true), (daniel_node, st0)) /\
  __getattr__ (scripted []) 0 "is_monkey" (daniel_node, st0)
    = (Return (GotBool false), (daniel_node, st0)) /\
  __getattr__ (scripted []) 0 "is_person" (jack_node, st0)
    = (Raise (KeyError "objectClass"), (jack_node, st0)).
Proof.
  split; [|split].
  - exact (is_class_accessor (scripted []) 0 daniel_node st0 _ "person" eq_refl).
  - exact (is_class_accessor (scripted []) 0 daniel_node st0 _ "monkey" eq_refl).
  - exact (is_class_accessor (scripted []) 0 jack_node st0 _ "person" eq_refl).
Defined.



Lemma save_twice_witness :
  save (scripted []) (jack_zsh, st0)
    = (Return (),
       (jack_saved,
        mkst conn0 [CModify 0 jack_dn
                      [EMod (MOD_REPLACE, "loginShell", Some "/bin/zsh")]])) /\
  forall s2, save (scripted []) (jack_saved, s2) = (Return (), (jack_saved, s2)).
Proof.
  assert (H : save (scripted []) (jack_zsh, st0)
              = (Return (),
                 (jack_saved,
                  mkst conn0 [CModify 0 jack_dn
                                [EMod (MOD_REPLACE, "loginShell", Some "/bin/zsh")]])))
    by reflexivity.
  split; [exact H|].
  exact (save_twice (scripted []) jack_zsh jack_saved st0 _ H).
Defined.

Lemma save_keeps_values_witness :
  _dn jack_saved = _dn jack_zsh /\ _valid jack_saved = _valid jack_zsh /\
  stored jack_saved = stored jack_zsh.
Proof.
  exact (save_keeps_values (scripted []) jack_zsh jack_saved st0
           (mkst conn0 [CModify 0 jack_dn
                          [EMod (MOD_REPLACE, "loginShell", Some "/bin/zsh")]])
           (Return ()) eq_refl).
Defined.

Lemma fetch_builds_clean_trackers_witness :
  exists attr,
    fetched_attr (scripted one_entry) 3 (get_ldap_node jack_dn, st0)
      = (Return attr,
         (LdapNode.mk jack_dn true [] false (Some attr), after_one_entry)) /\
    (forall name,
       attr !! name
       = (fun vs => LdapAttribute.mk name false [] vs) <$> (jack_entry.2 !! name)) /\
    (forall name a, attr !! name = Some a -> clean a).
Proof.
  exact (proj1 (fetch_builds_clean_trackers (scripted one_entry) 3
                  (get_ldap_node jack_dn) st0 eq_refl)
           jack_entry [] after_one_entry eq_refl).
Defined.

Lemma delete_outcome_witness :
  mkst conn0 [CDelete 0 jack_dn]
    = (LdapConnection.delete (scripted []) (_dn jack_node) st0).2 /\
  ((Return () = Return () /\
    LdapNode.mk jack_dn false [] false (_attr jack_node)
    = LdapNode.mk (_dn jack_node) false (_to_delete jack_node) (_new jack_node)
        (_attr jack_node)) \/
   (Return () <> Return () /\
    LdapNode.mk jack_dn false [] false (_attr jack_node) = jack_node)).
Proof.
  exact (delete_outcome (scripted []) jack_node
           (LdapNode.mk jack_dn false [] false (_attr jack_node))
           st0 (mkst conn0 [CDelete 0 jack_dn]) (Return ()) eq_refl).
Defined.

Lemma set_password_plaintext_witness :
  exists a,
    set_password (scripted []) no_private 0 "secret" (jack_node, st0)
    = (Return (),
       (LdapNode.mk jack_dn true [] false
          (Some (<[ "userPassword" := a ]>
                   {[ "loginShell" :=
                        LdapAttribute.__init__ "loginShell" (PyList ["/bin/bash"])
                          false ]})), st0)) /\
    LdapAttribute._values a = ["secret"] /\
    LdapAttribute._name a = "userPassword".
Proof.
  exact (set_password_plaintext (scripted []) no_private 0 jack_node st0 _ "secret"
           eq_refl).
Defined.

End NodeMoreExamples.

(** ** The search, result by result *)

Section SearchResults.
Import LdapConnection.
Variable L : ldap_lib.

(** One turn of the result loop that meets an entry. *)
Lemma query_loop_entry (fuel : nat) (rid : msgid) (s : st) (lo : handle)
  (e : entry) (d : list entry) :
  _lo (conn s) = Some lo ->
  result L (log s) lo rid (_timeout (conn s)) = Return (RES_SEARCH_ENTRY, e :: d) ->
  query_loop L (S fuel) rid s
  = (Return (Some e),
     mkst (conn s) (log s ++ [CResult lo rid (_timeout (conn s))])).
Proof.
  intros Hlo Hr. simpl. unfold bind, get_conn, the_lo, invoke, ret.
  rewrite Hlo. simpl. by rewrite Hr.
Qed.

(** One turn of the result loop that meets the end of the results. *)
Lemma query_loop_end (fuel : nat) (rid : msgid) (s : st) (lo : handle)
  (rt : res_type) :
  _lo (conn s) = Some lo ->
  result L (log s) lo rid (_timeout (conn s)) = Return (rt, []) ->
  query_loop L (S fuel) rid s
  = (Return None, mkst (conn s) (log s ++ [CResult lo rid (_timeout (conn s))])).
Proof.
  intros Hlo Hr. simpl. unfold bind, get_conn, the_lo, invoke, ret.
  rewrite Hlo. simpl. by rewrite Hr.
Qed.

(** A step of the running search that meets an entry, and one that meets
    the end. *)
Lemma running_entry (a : query_args) (fuel : nat) (rid : msgid) (s : st)
  (lo : handle) (e : entry) (d : list entry) :
  _lo (conn s) = Some lo ->
  result L (log s) lo rid (_timeout (conn s)) = Return (RES_SEARCH_ENTRY, e :: d) ->
  query L (S fuel) a (RRunning (QLoop rid)) s
  = (Return e, RRunning (QLoop rid),
     mkst (conn s) (log s ++ [CResult lo rid (_timeout (conn s))])).
Proof.
  intros Hlo Hr. unfold query, _retry_on_disconnect_gen, query_next.
  by rewrite (query_loop_entry fuel rid s lo e d Hlo Hr).
Qed.

Lemma running_end (a : query_args) (fuel : nat) (rid : msgid) (s : st)
  (lo : handle) (rt : res_type) :
  _lo (conn s) = Some lo ->
  result L (log s) lo rid (_timeout (conn s)) = Return (rt, []) ->
  query L (S fuel) a (RRunning (QLoop rid)) s
  = (Raise StopIteration, RDone,
     mkst (conn s) (log s ++ [CResult lo rid (_timeout (conn s))])).
Proof.
  intros Hlo Hr. unfold query, _retry_on_disconnect_gen, query_next.
  by rewrite (query_loop_end fuel rid s lo rt Hlo Hr).
Qed.

(** The first step of a search whose search call returns. *)
Lemma new_step (a : query_args) (fuel : nat) (rid : msgid) (s s2 : st)
  (lo : handle) (x : option entry) :
  _lo (conn s) = Some lo ->
  search L (log s) lo (default (_base (conn s)) (q_base a)) (q_scope a)
         (q_filter a) (q_retrieve_attributes a) = Return rid ->
  query_loop L fuel rid
    (mkst (conn s)
       (log s ++ [CSearch lo (default (_base (conn s)) (q_base a)) (q_scope a)
                          (q_filter a) (q_retrieve_attributes a)]))
    = (Return x, s2) ->
  query L fuel a RNew s
  = match x with
    | Some e => (Return e, RRunning (QLoop rid), s2)
    | None => (Raise StopIteration, RDone, s2)
    end.
Proof.
  intros Hlo Hs Hl.
  unfold query, _retry_on_disconnect_gen, query_next, query_enter, bind,
    get_conn, the_lo, invoke, ret.
  rewrite Hlo. cbn [conn log]. rewrite Hs, Hl. by destruct x.
Qed.

(** The rest of a search whose results are the entries [es], one with each
    result call, and then the end. *)
Lemma list_running (a : query_args) (lo : handle) (rid : msgid) (rt : res_type)
  (es : list entry) :
  forall (fuel fuel2 : nat) (s : st) (acc : list entry),
    _lo (conn s) = Some lo ->
    (forall i e, es !! i = Some e ->
       exists d,
         result L (log s ++ replicate i (CResult lo rid (_timeout (conn s))))
                lo rid (_timeout (conn s))
         = Return (RES_SEARCH_ENTRY, e :: d)) ->
    result L (log s ++ replicate (length es) (CResult lo rid (_timeout (conn s))))
           lo rid (_timeout (conn s)) = Return (rt, []) ->
    length es < fuel ->
    list_ fuel (query L (S fuel2) a) (RRunning (QLoop rid)) acc s
    = (Return (acc ++ es),
       mkst (conn s)
         (log s ++ replicate (S (length es)) (CResult lo rid (_timeout (conn s))))).
Proof.
  induction es as [|e es IH]; intros fuel fuel2 s acc Hlo Hres Hend Hfuel.
  - destruct fuel as [|fuel]; [simpl in Hfuel; lia|].
    simpl in Hend. rewrite app_nil_r in Hend.
    cbn [list_]. rewrite (running_end a fuel2 rid s lo rt Hlo Hend).
    by rewrite app_nil_r.
  - destruct fuel as [|fuel]; [simpl in Hfuel; lia|].
    destruct (Hres 0 e eq_refl) as [d Hr]. simpl in Hr. rewrite app_nil_r in Hr.
    cbn [list_]. rewrite (running_entry a fuel2 rid s lo e d Hlo Hr).
    rewrite (IH fuel fuel2
               (mkst (conn s) (log s ++ [CResult lo rid (_timeout (conn s))]))
               (acc ++ [e])).
    + simpl. by rewrite <- !app_assoc.
    + exact Hlo.
    + intros i e' Hi. simpl. rewrite <- app_assoc. apply (Hres (S i) e' Hi).
    + simpl. rewrite <- app_assoc. exact Hend.
    + simpl in Hfuel. lia.
Qed.

(** X23: when the search call returns and the server then hands out the
    entries [es], one with each result call, followed by an empty result,
    [list(query(...))] returns exactly [es], in that order; it has made the
    one search call and one result call per entry plus one. Of a result
    that holds several entries only the first is handed out. *)
Theorem search_collects_all (a : query_args) (s : st) (lo : handle) (rid : msgid)
  (rt : res_type) (es : list entry) (fuel fuel2 : nat) :
  _lo (conn s) = Some lo ->
  search L (log s) lo (default (_base (conn s)) (q_base a)) (q_scope a)
         (q_filter a) (q_retrieve_attributes a) = Return rid ->
  (forall i e, es !! i = Some e ->
     exists d,
       result L
         ((log s ++ [CSearch lo (default (_base (conn s)) (q_base a)) (q_scope a)
                             (q_filter a) (q_retrieve_attributes a)])
          ++ replicate i (CResult lo rid (_timeout (conn s))))
         lo rid (_timeout (conn s))
       = Return (RES_SEARCH_ENTRY, e :: d)) ->
  result L
    ((log s ++ [CSearch lo (default (_base (conn s)) (q_base a)) (q_scope a)
                        (q_filter a) (q_retrieve_attributes a)])
     ++ replicate (length es) (CResult lo rid (_timeout (conn s))))
    lo rid (_timeout (conn s)) = Return (rt, []) ->
  length es < fuel ->
  list_ fuel (query L (S fuel2) a) RNew [] s
  = (Return es,
     mkst (conn s)
       ((log s ++ [CSearch lo (default (_base (conn s)) (q_base a)) (q_scope a)
                           (q_filter a) (q_retrieve_attributes a)])
        ++ replicate (S (length es)) (CResult lo rid (_timeout (conn s))))).
Proof.
  intros Hlo Hs Hres Hend Hfuel.
  destruct fuel as [|fuel]; [lia|].
  set (s1 := mkst (conn s)
               (log s ++ [CSearch lo (default (_base (conn s)) (q_base a))
                            (q_scope a) (q_filter a) (q_retrieve_attributes a)])).
  destruct es as [|e es].
  - simpl in Hend. rewrite app_nil_r in Hend.
    cbn [list_].
    rewrite (new_step a (S fuel2) rid s _ lo None Hlo Hs
               (query_loop_end fuel2 rid s1 lo rt Hlo Hend)).
    reflexivity.
  - destruct (Hres 0 e eq_refl) as [d Hr]. simpl in Hr. rewrite app_nil_r in Hr.
    cbn [list_].
    rewrite (new_step a (S fuel2) rid s _ lo (Some e) Hlo Hs
               (query_loop_entry fuel2 rid s1 lo e d Hlo Hr)).
    subst s1. cbn [conn log].
    etrans; [apply (list_running a lo rid rt es)|].
    + exact Hlo.
    + intros i e' Hi. simpl. rewrite <- app_assoc. apply (Hres (S i) e' Hi).
    + simpl. rewrite <- app_assoc. exact Hend.
    + simpl in Hfuel. lia.
    + simpl. by rewrite <- !app_assoc.
Qed.

End SearchResults.

Section SearchResultsExamples.
Import LdapConnection.

Lemma search_collects_all_witness :
  list_ 2 (query (scripted one_entry) 1 search_all) RNew [] st0
  = (Return [jack_entry],
     mkst conn0
       [CSearch 0 "dc=example,dc=com" SCOPE_SUBTREE "(objectClass=*)" None;
        CResult 0 1 0; CResult 0 1 0]).
Proof.
  assert (Hres : forall i e, [jack_entry] !! i = Some e ->
            exists d,
              result (scripted one_entry)
                ((log st0 ++ [CSearch 0 (default (_base (conn st0)) (q_base search_all))
                                (q_scope search_all) (q_filter search_all)
                                (q_retrieve_attributes search_all)])
                 ++ replicate i (CResult 0 1 (_timeout (conn st0))))
                0 1 (_timeout (conn st0))
              = Return (RES_SEARCH_ENTRY, e :: d)).
  { intros i e Hi. destruct i as [|i]; [|discriminate Hi].
    injection Hi as <-. exists []. reflexivity. }
  assert (Hfuel : length [jack_entry] < 2).
  { simpl. lia. }
  exact (search_collects_all (scripted one_entry) search_all st0 0 1
           RES_SEARCH_RESULT [jack_entry] 2 0 eq_refl eq_refl Hres eq_refl Hfuel).
Defined.

End SearchResultsExamples.
